(** * Basic authentication for the admin routes

    A shallow embedding of [middleware.ts] (the middleware guarding
    [/admin/:path*]) and of [lib/isValidPassword.ts] (the SHA-512 / base64
    credential verifier), together with the platform primitives the two
    files call:
    - [String.prototype.split] and array indexing (ECMAScript);
    - [Headers.get] (Fetch: names compared without regard to case, several
      values joined with a comma and a space);
    - [Buffer.from(_, "base64")] and [buf.toString("base64")] (Node: the
      decoder accepts both alphabets of RFC 4648, skips every other
      character and stops at the first [=]; anything but a string, buffer
      or array is a [TypeError]);
    - [buf.toString()] and [TextEncoder.encode] (UTF-8 as the WHATWG
      Encoding standard decodes and encodes it, ill-formed input replaced
      by U+FFFD);
    - [crypto.subtle.digest("SHA-512", _)] (FIPS 180-4).

    JavaScript strings are sequences of UTF-16 code units, buffers are
    sequences of bytes; both are lists of [Z] here.  An [async] function is a
    computation in the [result] monad: [Ok v] is a promise fulfilled with
    [v], [Throw e] a promise rejected with [e]. *)

From Stdlib Require Import String Ascii ZArith List Bool Lia.
Import ListNotations.
Local Open Scope Z_scope.

(** ** JavaScript values *)

Definition code_unit := Z.
Definition jsstring := list code_unit.
Definition bytes := list Z.

(** An ASCII literal as a JavaScript string. *)
Fixpoint js (s : string) : jsstring :=
  match s with
  | EmptyString => []
  | String a r => Z.of_N (N_of_ascii a) :: js r
  end.

(** The values that flow through the middleware: a string, or [undefined]
    (an array index out of range, an environment variable that is not
    set). *)
Inductive value : Type :=
| Undefined
| Str (s : jsstring).

Inductive error : Type :=
| TypeError.

Inductive result (A : Type) : Type :=
| Ok (a : A)
| Throw (e : error).
Arguments Ok {A} a.
Arguments Throw {A} e.

Definition bind {A B} (m : result A) (k : A -> result B) : result B :=
  match m with
  | Ok a => k a
  | Throw e => Throw e
  end.

Notation "'let*' x ':=' 'await' m 'in' k" := (bind m (fun x => k))
  (at level 10, x name, m at level 100, k at level 200).

Fixpoint str_eqb (s t : jsstring) : bool :=
  match s, t with
  | [], [] => true
  | c :: s', d :: t' => (c =? d) && str_eqb s' t'
  | _, _ => false
  end.

(** [a === b] on the values above. *)
Definition strict_eq (a b : value) : bool :=
  match a, b with
  | Undefined, Undefined => true
  | Str s, Str t => str_eqb s t
  | _, _ => false
  end.

(** ** [String.prototype.split] with a one-character separator *)

Fixpoint split (sep : code_unit) (s : jsstring) : list jsstring :=
  match s with
  | [] => [[]]
  | c :: r =>
      if c =? sep then [] :: split sep r
      else match split sep r with
           | [] => [[c]]
           | w :: ws => (c :: w) :: ws
           end
  end.

(** [arr[i]]: the element, or [undefined] past the end. *)
Definition index (arr : list jsstring) (i : nat) : value :=
  match nth_error arr i with
  | Some s => Str s
  | None => Undefined
  end.

Definition SPACE : code_unit := 32.
Definition COLON : code_unit := 58.

(** ** [Headers.get] *)

Definition to_lower (c : code_unit) : code_unit :=
  if (65 <=? c) && (c <=? 90) then c + 32 else c.

Definition lowercase (s : jsstring) : jsstring := map to_lower s.

Definition Headers := list (jsstring * jsstring).

Fixpoint header_values (name : jsstring) (h : Headers) : list jsstring :=
  match h with
  | [] => []
  | (n, v) :: r =>
      if str_eqb (lowercase n) (lowercase name)
      then v :: header_values name r
      else header_values name r
  end.

Fixpoint join (sep : jsstring) (l : list jsstring) : jsstring :=
  match l with
  | [] => []
  | [s] => s
  | s :: r => s ++ sep ++ join sep r
  end.

(** [headers.get(name)]: [null] when no header has that name (compared
    without regard to case), else the values joined with [", "]. *)
Definition Headers_get (h : Headers) (name : jsstring) : option jsstring :=
  match header_values name h with
  | [] => None
  | vs => Some (join (js ", ") vs)
  end.

(** [a || b] on nullable strings: [null] and the empty string are falsy. *)
Definition or_else (a b : option jsstring) : option jsstring :=
  match a with
  | Some (_ :: _) => a
  | _ => b
  end.

(** ** Base64 *)

Definition EQUALS : code_unit := 61.

(** The value of a base64 digit; the decoder accepts the standard and the
    URL-safe alphabet. *)
Definition unbase64 (c : code_unit) : option Z :=
  if (65 <=? c) && (c <=? 90) then Some (c - 65)
  else if (97 <=? c) && (c <=? 122) then Some (c - 71)
  else if (48 <=? c) && (c <=? 57) then Some (c + 4)
  else if (c =? 43) || (c =? 45) then Some 62
  else if (c =? 47) || (c =? 95) then Some 63
  else None.

(** The digits of the input: decoding stops at the first [=], and a
    character outside the alphabet is skipped. *)
Fixpoint sextets (s : jsstring) : list Z :=
  match s with
  | [] => []
  | c :: r =>
      if c =? EQUALS then []
      else match unbase64 c with
           | Some v => v :: sextets r
           | None => sextets r
           end
  end.

Fixpoint unsextets (l : list Z) : bytes :=
  match l with
  | a :: b :: c :: d :: r =>
      Z.lor (Z.shiftl a 2) (Z.shiftr b 4)
      :: Z.lor (Z.shiftl (Z.land b 15) 4) (Z.shiftr c 2)
      :: Z.lor (Z.shiftl (Z.land c 3) 6) d
      :: unsextets r
  | [a; b; c] =>
      [Z.lor (Z.shiftl a 2) (Z.shiftr b 4);
       Z.lor (Z.shiftl (Z.land b 15) 4) (Z.shiftr c 2)]
  | [a; b] => [Z.lor (Z.shiftl a 2) (Z.shiftr b 4)]
  | _ => []
  end.

Definition base64_decode (s : jsstring) : bytes := unsextets (sextets s).

(** [Buffer.from(v, "base64")]: a string is decoded leniently, anything that
    is not a string, a buffer or an array is a [TypeError]. *)
Definition Buffer_from_base64 (v : value) : result bytes :=
  match v with
  | Str s => Ok (base64_decode s)
  | Undefined => Throw TypeError
  end.

Definition base64_digit (v : Z) : code_unit :=
  if v <? 26 then v + 65
  else if v <? 52 then v + 71
  else if v <? 62 then v - 4
  else if v =? 62 then 43
  else 47.

(** [buf.toString("base64")]. *)
Fixpoint base64_encode (b : bytes) : jsstring :=
  match b with
  | x :: y :: z :: r =>
      base64_digit (Z.shiftr x 2)
      :: base64_digit (Z.lor (Z.shiftl (Z.land x 3) 4) (Z.shiftr y 4))
      :: base64_digit (Z.lor (Z.shiftl (Z.land y 15) 2) (Z.shiftr z 6))
      :: base64_digit (Z.land z 63)
      :: base64_encode r
  | [x; y] =>
      [base64_digit (Z.shiftr x 2);
       base64_digit (Z.lor (Z.shiftl (Z.land x 3) 4) (Z.shiftr y 4));
       base64_digit (Z.shiftl (Z.land y 15) 2);
       EQUALS]
  | [x] =>
      [base64_digit (Z.shiftr x 2);
       base64_digit (Z.shiftl (Z.land x 3) 4);
       EQUALS; EQUALS]
  | [] => []
  end.

(** ** UTF-8 *)

Definition REPLACEMENT : Z := 0xFFFD.

(** The decoder's state between two bytes: at a character boundary, or inside
    a sequence with the bits read so far, the number of continuation bytes
    still due and the range the next one must lie in. *)
Inductive utf8_state : Type :=
| Boundary
| Inside (cp : Z) (due : nat) (lower upper : Z).

(** A byte read at a character boundary: the next state and the code points
    it completes. *)
Definition utf8_lead (b : Z) : utf8_state * list Z :=
  if b <=? 0x7F then (Boundary, [b])
  else if (0xC2 <=? b) && (b <=? 0xDF) then (Inside (Z.land b 0x1F) 1 0x80 0xBF, [])
  else if (0xE0 <=? b) && (b <=? 0xEF) then
    (Inside (Z.land b 0xF) 2
       (if b =? 0xE0 then 0xA0 else 0x80) (if b =? 0xED then 0x9F else 0xBF), [])
  else if (0xF0 <=? b) && (b <=? 0xF4) then
    (Inside (Z.land b 0x7) 3
       (if b =? 0xF0 then 0x90 else 0x80) (if b =? 0xF4 then 0x8F else 0xBF), [])
  else (Boundary, [REPLACEMENT]).

(** UTF-8 decoding with replacement: an ill-formed sequence becomes U+FFFD
    and the byte that broke it is read again as a lead byte. *)
Fixpoint utf8_decode_from (st : utf8_state) (b : bytes) : list Z :=
  match b with
  | [] =>
      match st with
      | Boundary => []
      | Inside _ _ _ _ => [REPLACEMENT]
      end
  | x :: r =>
      match st with
      | Boundary =>
          let (st', out) := utf8_lead x in out ++ utf8_decode_from st' r
      | Inside cp due lower upper =>
          if (lower <=? x) && (x <=? upper) then
            let cp' := Z.lor (Z.shiftl cp 6) (Z.land x 0x3F) in
            match due with
            | S (S due') => utf8_decode_from (Inside cp' (S due') 0x80 0xBF) r
            | _ => cp' :: utf8_decode_from Boundary r
            end
          else
            let (st', out) := utf8_lead x in
            REPLACEMENT :: out ++ utf8_decode_from st' r
      end
  end.

Definition utf16_units (cp : Z) : list code_unit :=
  if cp <? 0x10000 then [cp]
  else [0xD800 + Z.shiftr (cp - 0x10000) 10; 0xDC00 + Z.land (cp - 0x10000) 0x3FF].

(** [buf.toString()]: the bytes read as UTF-8. *)
Definition Buffer_toString (b : bytes) : jsstring :=
  flat_map utf16_units (utf8_decode_from Boundary b).

Definition is_high_surrogate (c : code_unit) : bool := (0xD800 <=? c) && (c <=? 0xDBFF).
Definition is_low_surrogate (c : code_unit) : bool := (0xDC00 <=? c) && (c <=? 0xDFFF).

(** The scalar values of a string: a surrogate pair is one code point, a
    lone surrogate is replaced by U+FFFD. *)
Fixpoint scalar_values (s : jsstring) : list Z :=
  match s with
  | [] => []
  | c :: r =>
      if is_high_surrogate c then
        match r with
        | d :: r' =>
            if is_low_surrogate d
            then (0x10000 + Z.shiftl (c - 0xD800) 10 + (d - 0xDC00)) :: scalar_values r'
            else REPLACEMENT :: scalar_values r
        | [] => [REPLACEMENT]
        end
      else if is_low_surrogate c then REPLACEMENT :: scalar_values r
      else c :: scalar_values r
  end.

Definition utf8_bytes (cp : Z) : bytes :=
  if cp <? 0x80 then [cp]
  else if cp <? 0x800 then
    [Z.lor 0xC0 (Z.shiftr cp 6); Z.lor 0x80 (Z.land cp 0x3F)]
  else if cp <? 0x10000 then
    [Z.lor 0xE0 (Z.shiftr cp 12);
     Z.lor 0x80 (Z.land (Z.shiftr cp 6) 0x3F);
     Z.lor 0x80 (Z.land cp 0x3F)]
  else
    [Z.lor 0xF0 (Z.shiftr cp 18);
     Z.lor 0x80 (Z.land (Z.shiftr cp 12) 0x3F);
     Z.lor 0x80 (Z.land (Z.shiftr cp 6) 0x3F);
     Z.lor 0x80 (Z.land cp 0x3F)].

(** The UTF-8 bytes of a string. *)
Definition utf8 (s : jsstring) : bytes := flat_map utf8_bytes (scalar_values s).

(** [new TextEncoder().encode(v)]; the argument defaults to the empty string
    when it is [undefined]. *)
Definition TextEncoder_encode (v : value) : bytes :=
  match v with
  | Undefined => utf8 []
  | Str s => utf8 s
  end.

(** ** SHA-512 (FIPS 180-4), the digest behind [crypto.subtle.digest] *)

Module SHA512.

Definition w : Z := 64.
Definition wrap (x : Z) : Z := x mod 2 ^ w.
Definition add (x y : Z) : Z := wrap (x + y).

Definition SHR (n x : Z) : Z := Z.shiftr x n.
Definition ROTR (n x : Z) : Z := Z.lor (Z.shiftr x n) (wrap (Z.shiftl x (w - n))).
Definition NOT (x : Z) : Z := Z.lxor x (2 ^ w - 1).

Definition Ch (x y z : Z) : Z := Z.lxor (Z.land x y) (Z.land (NOT x) z).
Definition Maj (x y z : Z) : Z :=
  Z.lxor (Z.lxor (Z.land x y) (Z.land x z)) (Z.land y z).
Definition Sigma0 (x : Z) : Z := Z.lxor (Z.lxor (ROTR 28 x) (ROTR 34 x)) (ROTR 39 x).
Definition Sigma1 (x : Z) : Z := Z.lxor (Z.lxor (ROTR 14 x) (ROTR 18 x)) (ROTR 41 x).
Definition sigma0 (x : Z) : Z := Z.lxor (Z.lxor (ROTR 1 x) (ROTR 8 x)) (SHR 7 x).
Definition sigma1 (x : Z) : Z := Z.lxor (Z.lxor (ROTR 19 x) (ROTR 61 x)) (SHR 6 x).

Definition K : list Z :=
  [0x428a2f98d728ae22; 0x7137449123ef65cd; 0xb5c0fbcfec4d3b2f; 0xe9b5dba58189dbbc;
   0x3956c25bf348b538; 0x59f111f1b605d019; 0x923f82a4af194f9b; 0xab1c5ed5da6d8118;
   0xd807aa98a3030242; 0x12835b0145706fbe; 0x243185be4ee4b28c; 0x550c7dc3d5ffb4e2;
   0x72be5d74f27b896f; 0x80deb1fe3b1696b1; 0x9bdc06a725c71235; 0xc19bf174cf692694;
   0xe49b69c19ef14ad2; 0xefbe4786384f25e3; 0x0fc19dc68b8cd5b5; 0x240ca1cc77ac9c65;
   0x2de92c6f592b0275; 0x4a7484aa6ea6e483; 0x5cb0a9dcbd41fbd4; 0x76f988da831153b5;
   0x983e5152ee66dfab; 0xa831c66d2db43210; 0xb00327c898fb213f; 0xbf597fc7beef0ee4;
   0xc6e00bf33da88fc2; 0xd5a79147930aa725; 0x06ca6351e003826f; 0x142929670a0e6e70;
   0x27b70a8546d22ffc; 0x2e1b21385c26c926; 0x4d2c6dfc5ac42aed; 0x53380d139d95b3df;
   0x650a73548baf63de; 0x766a0abb3c77b2a8; 0x81c2c92e47edaee6; 0x92722c851482353b;
   0xa2bfe8a14cf10364; 0xa81a664bbc423001; 0xc24b8b70d0f89791; 0xc76c51a30654be30;
   0xd192e819d6ef5218; 0xd69906245565a910; 0xf40e35855771202a; 0x106aa07032bbd1b8;
   0x19a4c116b8d2d0c8; 0x1e376c085141ab53; 0x2748774cdf8eeb99; 0x34b0bcb5e19b48a8;
   0x391c0cb3c5c95a63; 0x4ed8aa4ae3418acb; 0x5b9cca4f7763e373; 0x682e6ff3d6b2b8a3;
   0x748f82ee5defb2fc; 0x78a5636f43172f60; 0x84c87814a1f0ab72; 0x8cc702081a6439ec;
   0x90befffa23631e28; 0xa4506cebde82bde9; 0xbef9a3f7b2c67915; 0xc67178f2e372532b;
   0xca273eceea26619c; 0xd186b8c721c0c207; 0xeada7dd6cde0eb1e; 0xf57d4f7fee6ed178;
   0x06f067aa72176fba; 0x0a637dc5a2c898a6; 0x113f9804bef90dae; 0x1b710b35131c471b;
   0x28db77f523047d84; 0x32caab7b40c72493; 0x3c9ebe0a15c9bebc; 0x431d67c49c100d4c;
   0x4cc5d4becb3e42b6; 0x597f299cfc657e2a; 0x5fcb6fab3ad6faec; 0x6c44198c4a475817].

Definition H0 : list Z :=
  [0x6a09e667f3bcc908; 0xbb67ae8584caa73b; 0x3c6ef372fe94f82b; 0xa54ff53a5f1d36f1;
   0x510e527fade682d1; 0x9b05688c2b3e6c1f; 0x1f83d9abfb41bd6b; 0x5be0cd19137e2179].

(** Big-endian conversions. *)
Definition be_value (b : bytes) : Z := fold_left (fun acc x => acc * 256 + x) b 0.

Fixpoint be_bytes (n : nat) (x : Z) : bytes :=
  match n with
  | O => []
  | S n' => be_bytes n' (Z.shiftr x 8) ++ [Z.land x 255]
  end.

Fixpoint chunks (size count : nat) (l : list Z) : list (list Z) :=
  match count with
  | O => []
  | S count' => firstn size l :: chunks size count' (skipn size l)
  end.

(** Section 5.1.2: a 1 bit, zero bits up to 896 modulo 1024, and the length
    of the message in bits as a 128-bit number. *)
Definition pad (m : bytes) : bytes :=
  let len := Z.of_nat (length m) in
  m ++ [0x80] ++ repeat 0 (Z.to_nat ((111 - len) mod 128)) ++ be_bytes 16 (8 * len).

Definition parse (m : bytes) : list (list Z) :=
  map (fun block => map be_value (chunks 8 16 block))
      (chunks 128 (length m / 128) m).

(** Section 6.4.2, step 1: the message schedule; [window] holds the sixteen
    words before the one being computed. *)
Fixpoint extend (n : nat) (window : list Z) : list Z :=
  match n with
  | O => []
  | S n' =>
      let wt := add (add (add (sigma1 (nth 14 window 0)) (nth 9 window 0))
                         (sigma0 (nth 1 window 0))) (nth 0 window 0) in
      wt :: extend n' (tl window ++ [wt])
  end.

Definition schedule (block : list Z) : list Z := block ++ extend 64 block.

Record registers : Type :=
  Regs { ra : Z; rb : Z; rc : Z; rd : Z; re : Z; rf : Z; rg : Z; rh : Z }.

(** Section 6.4.2, step 3: one round. *)
Definition round (r : registers) (kw : Z * Z) : registers :=
  let T1 := add (add (add (add (rh r) (Sigma1 (re r))) (Ch (re r) (rf r) (rg r)))
                     (fst kw)) (snd kw) in
  let T2 := add (Sigma0 (ra r)) (Maj (ra r) (rb r) (rc r)) in
  Regs (add T1 T2) (ra r) (rb r) (rc r) (add (rd r) T1) (re r) (rf r) (rg r).

Definition of_list (h : list Z) : registers :=
  Regs (nth 0 h 0) (nth 1 h 0) (nth 2 h 0) (nth 3 h 0)
       (nth 4 h 0) (nth 5 h 0) (nth 6 h 0) (nth 7 h 0).

Definition to_list (r : registers) : list Z :=
  [ra r; rb r; rc r; rd r; re r; rf r; rg r; rh r].

(** Section 6.4.2, steps 2 to 4: one block folded into the hash value. *)
Definition compress (h : list Z) (block : list Z) : list Z :=
  let r := fold_left round (combine K (schedule block)) (of_list h) in
  map (fun p => add (fst p) (snd p)) (combine h (to_list r)).

Definition digest (m : bytes) : bytes :=
  flat_map (be_bytes 8) (fold_left compress (parse (pad m)) H0).

End SHA512.

(** [crypto.subtle.digest("SHA-512", data)]. *)
Definition crypto_subtle_digest_SHA512 (data : bytes) : bytes := SHA512.digest data.

(** ** lib/isValidPassword.ts *)

Definition hashPassword (password : value) : result jsstring :=
  let* arrayBuffer := await
    Ok (crypto_subtle_digest_SHA512 (TextEncoder_encode password)) in
  Ok (base64_encode arrayBuffer).

Definition isValidPassword (password hashedPassword : value) : result bool :=
  let* hashed := await hashPassword password in
  Ok (strict_eq (Str hashed) hashedPassword).

(** ** middleware.ts *)

(** [process.env], as far as the middleware reads it. *)
Record Env : Type := {
  ADMIN_USERNAME : value;
  HASHED_ADMIN_PASSWORD : value
}.

Record NextRequest : Type := {
  headers : Headers
}.

Record NextResponse : Type := {
  body : jsstring;
  status : Z;
  response_headers : Headers
}.

(** [req.headers.get("authorization") || req.headers.get("Authorization")]. *)
Definition authHeader_of (req : NextRequest) : option jsstring :=
  or_else (Headers_get (headers req) (js "authorization"))
          (Headers_get (headers req) (js "Authorization")).

(** The destructuring
    [const [username, password] =
       Buffer.from(authHeader.split(" ")[1], "base64").toString().split(":")]. *)
Definition credentials (authHeader : jsstring) : result (value * value) :=
  let* buffer := await Buffer_from_base64 (index (split SPACE authHeader) 1) in
  let parts := split COLON (Buffer_toString buffer) in
  Ok (index parts 0, index parts 1).

Definition isAuthenticated (env : Env) (req : NextRequest) : result bool :=
  match authHeader_of req with
  | None => Ok false
  | Some authHeader =>
      let* up := await credentials authHeader in
      if strict_eq (fst up) (ADMIN_USERNAME env)
      then isValidPassword (snd up) (HASHED_ADMIN_PASSWORD env)
      else Ok false
  end.

Definition Unauthorized : NextResponse :=
  {| body := js "Unauthorized";
     status := 401;
     response_headers := [(js "WWW-Authenticate", js "Basic")] |}.

(** [None] lets the request through, [Some r] answers it with [r]. *)
Definition middleware (env : Env) (req : NextRequest) : result (option NextResponse) :=
  let* authenticated := await isAuthenticated env req in
  if Bool.eqb authenticated false then Ok (Some Unauthorized) else Ok None.

(** ** Vocabulary of the statements *)

(** The digest of a value as [hashPassword] computes it, and the digest a
    password is provisioned with. *)
Definition digest_text (password : value) : jsstring :=
  base64_encode (crypto_subtle_digest_SHA512 (TextEncoder_encode password)).

Definition digestOf (password : jsstring) : jsstring := digest_text (Str password).

(** A request with one [Authorization] header. *)
Definition request_with (authorization : jsstring) : NextRequest :=
  {| headers := [(js "Authorization", authorization)] |}.

(** The header value [<scheme> <base64(text)>]. *)
Definition basic_header (scheme text : jsstring) : jsstring :=
  scheme ++ SPACE :: base64_encode (utf8 text).

(** The part of a string before its first separator. *)
Fixpoint before (sep : code_unit) (s : jsstring) : jsstring :=
  match s with
  | [] => []
  | c :: r => if c =? sep then [] else c :: before sep r
  end.

Definition is_byte (b : Z) : Prop := 0 <= b < 256.
Definition is_sextet (v : Z) : Prop := 0 <= v < 64.
Definition is_scalar (cp : Z) : Prop := 0 <= cp < 0xD800 \/ 0xE000 <= cp < 0x110000.

(** A string of 16-bit code units in which every surrogate is paired. *)
Fixpoint well_formed (s : jsstring) : bool :=
  match s with
  | [] => true
  | c :: r =>
      if is_high_surrogate c then
        match r with
        | d :: r' => is_low_surrogate d && well_formed r'
        | [] => false
        end
      else negb (is_low_surrogate c) && (0 <=? c) && (c <=? 0xFFFF) && well_formed r
  end.

(** A base64 digit that decodes to the value it encodes and is neither the
    padding character nor a space. *)
Definition digit_ok (v : Z) : bool :=
  match unbase64 (base64_digit v) with
  | Some w => w =? v
  | None => false
  end && negb (base64_digit v =? EQUALS) && negb (base64_digit v =? SPACE).

(** What the middleware answers once the header is decoded into a username and a
    password: nothing (the request goes on) when both match, the 401
    otherwise. *)
Definition verdict (env : Env) (username password : value) : option NextResponse :=
  if strict_eq username (ADMIN_USERNAME env)
     && strict_eq (Str (digest_text password)) (HASHED_ADMIN_PASSWORD env)
  then None else Some Unauthorized.

(** A request refused because the decoded username is not the expected
    one. *)
Definition username_mismatch (env : Env) (req : NextRequest) : Prop :=
  exists a u p,
    authHeader_of req = Some a /\
    credentials a = Ok (u, p) /\
    strict_eq u (ADMIN_USERNAME env) = false.

(** A request refused because, the username being right, the digest of the
    decoded password is not the stored one. *)
Definition password_mismatch (env : Env) (req : NextRequest) : Prop :=
  exists a u p,
    authHeader_of req = Some a /\
    credentials a = Ok (u, p) /\
    strict_eq u (ADMIN_USERNAME env) = true /\
    isValidPassword p (HASHED_ADMIN_PASSWORD env) = Ok false.

(** Configurations used as examples. *)
Definition sample_env : Env :=
  {| ADMIN_USERNAME := Str (js "admin");
     HASHED_ADMIN_PASSWORD := Str (digestOf (js "secret")) |}.

Definition unset_digest_env : Env :=
  {| ADMIN_USERNAME := Str (js "admin");
     HASHED_ADMIN_PASSWORD := Undefined |}.

Definition empty_password_env : Env :=
  {| ADMIN_USERNAME := Str (js "admin");
     HASHED_ADMIN_PASSWORD := Str (digestOf (js "")) |}.

Definition colon_password_env : Env :=
  {| ADMIN_USERNAME := Str (js "admin");
     HASHED_ADMIN_PASSWORD := Str (digestOf (js "pa:ss:word")) |}.

Definition truncated_password_env : Env :=
  {| ADMIN_USERNAME := Str (js "admin");
     HASHED_ADMIN_PASSWORD := Str (digestOf (js "pa")) |}.

(** Further configurations used as examples. *)
Definition colon_username_env : Env :=
  {| ADMIN_USERNAME := Str (js "ad:min");
     HASHED_ADMIN_PASSWORD := Str (digestOf (js "secret")) |}.

Definition short_digest_env : Env :=
  {| ADMIN_USERNAME := Str (js "admin");
     HASHED_ADMIN_PASSWORD := Str (js "c2VjcmV0") |}.




(** * Properties *)

(** ** Strings and arrays *)

Lemma str_eqb_refl (s : jsstring) : str_eqb s s = true.
Proof.
  induction s as [|c s IH]; simpl; [reflexivity|].
  now rewrite Z.eqb_refl, IH.
Qed.

Lemma str_eqb_eq (s t : jsstring) : str_eqb s t = true <-> s = t.
Proof.
  split; [|intros ->; apply str_eqb_refl].
  revert t; induction s as [|c s IH]; intros [|d t]; simpl; try discriminate; auto.
  intros H. apply andb_prop in H as [Hc Hs].
  apply Z.eqb_eq in Hc. apply IH in Hs. congruence.
Qed.

Lemma str_eqb_neq (s t : jsstring) : str_eqb s t = false <-> s <> t.
Proof.
  rewrite <- str_eqb_eq. destruct (str_eqb s t); split; congruence.
Qed.


Lemma strict_eq_true (a b : value) : strict_eq a b = true <-> a = b.
Proof.
  destruct a as [|s], b as [|t]; simpl; try (split; [discriminate|congruence]).
  - tauto.
  - rewrite str_eqb_eq. split; congruence.
Qed.

Lemma strict_eq_false (a b : value) : strict_eq a b = false <-> a <> b.
Proof.
  rewrite <- strict_eq_true. destruct (strict_eq a b); split; congruence.
Qed.

(** A string is never [=== undefined]. *)
Lemma strict_eq_Undefined (s : jsstring) : strict_eq (Str s) Undefined = false.
Proof. reflexivity. Qed.

(** [split] never returns the empty array: its first element is the text
    before the first separator. *)
Lemma split_before (sep : code_unit) (s : jsstring) :
  exists ws, split sep s = before sep s :: ws.
Proof.
  induction s as [|c r [ws IH]]; simpl; [eauto|].
  destruct (c =? sep); [eauto|].
  rewrite IH. eauto.
Qed.

Lemma split_without (sep : code_unit) (s : jsstring) :
  ~ In sep s -> split sep s = [s].
Proof.
  induction s as [|c r IH]; simpl; intros H; [reflexivity|].
  destruct (Z.eqb_spec c sep) as [->|_]; [tauto|].
  rewrite IH by tauto. reflexivity.
Qed.

(** The first piece ends at the first separator, and the rest is split on
    every later one. *)
Lemma split_first (sep : code_unit) (u r : jsstring) :
  ~ In sep u -> split sep (u ++ sep :: r) = u :: split sep r.
Proof.
  induction u as [|c u IH]; simpl; intros H.
  - now rewrite Z.eqb_refl.
  - destruct (Z.eqb_spec c sep) as [->|_]; [tauto|].
    rewrite IH by tauto. reflexivity.
Qed.

Lemma before_without (sep : code_unit) (s : jsstring) :
  ~ In sep s -> before sep s = s.
Proof.
  induction s as [|c r IH]; simpl; intros H; [reflexivity|].
  destruct (Z.eqb_spec c sep) as [->|_]; [tauto|].
  rewrite IH by tauto. reflexivity.
Qed.

Lemma before_first (sep : code_unit) (u r : jsstring) :
  ~ In sep u -> before sep (u ++ sep :: r) = u.
Proof.
  induction u as [|c u IH]; simpl; intros H.
  - now rewrite Z.eqb_refl.
  - destruct (Z.eqb_spec c sep) as [->|_]; [tauto|].
    rewrite IH by tauto. reflexivity.
Qed.

Lemma index_split_0 (sep : code_unit) (s : jsstring) :
  index (split sep s) 0 = Str (before sep s).
Proof.
  destruct (split_before sep s) as [ws ->]. reflexivity.
Qed.

(** Induction two and three elements at a time, as [scalar_values] and
    [base64_encode] recurse. *)
Lemma list_ind2 {A} (P : list A -> Prop) :
  P [] -> (forall x, P [x]) ->
  (forall x y r, P r -> P (y :: r) -> P (x :: y :: r)) ->
  forall l, P l.
Proof.
  intros H0 H1 H2.
  assert (B : forall l, P l /\ forall x, P (x :: l)).
  { induction l as [|y r [IH1 IH2]]; split; auto. }
  intros l. apply B.
Qed.

Lemma list_ind3 {A} (P : list A -> Prop) :
  P [] -> (forall x, P [x]) -> (forall x y, P [x; y]) ->
  (forall x y z r, P r -> P (x :: y :: z :: r)) ->
  forall l, P l.
Proof.
  intros H0 H1 H2 H3.
  assert (B : forall l, P l /\ (forall x, P (x :: l)) /\ (forall x y, P (x :: y :: l))).
  { induction l as [|z r (IH1 & IH2 & IH3)]; repeat split; auto. }
  intros l. apply B.
Qed.

(** ** Headers *)

(** Header names are looked up without regard to case. *)
Lemma header_values_lowercase (name name' : jsstring) (h : Headers) :
  lowercase name = lowercase name' -> header_values name h = header_values name' h.
Proof.
  intros E. induction h as [|[n v] h IH]; simpl; [reflexivity|].
  now rewrite E, IH.
Qed.

Lemma Headers_get_Authorization (h : Headers) :
  Headers_get h (js "Authorization") = Headers_get h (js "authorization").
Proof.
  unfold Headers_get.
  now rewrite (header_values_lowercase (js "Authorization") (js "authorization")).
Qed.

Lemma or_else_same (a : option jsstring) : or_else a a = a.
Proof. now destruct a as [[|]|]. Qed.

(** The second lookup of [isAuthenticated] never finds what the first did
    not. *)
Lemma authHeader_of_get (req : NextRequest) :
  authHeader_of req = Headers_get (headers req) (js "authorization").
Proof.
  unfold authHeader_of. rewrite Headers_get_Authorization. apply or_else_same.
Qed.

Lemma header_values_absent (name : jsstring) (h : Headers) :
  (forall n v, In (n, v) h -> lowercase n <> lowercase name) ->
  header_values name h = [].
Proof.
  induction h as [|[n v] h IH]; simpl; intros H; [reflexivity|].
  destruct (str_eqb (lowercase n) (lowercase name)) eqn:E.
  - apply str_eqb_eq in E. exfalso. apply (H n v); auto.
  - apply IH. intros n' v' Hin. apply (H n' v'). now right.
Qed.

Lemma authHeader_of_request_with (a : jsstring) :
  authHeader_of (request_with a) = Some a.
Proof. now destruct a. Qed.

(** ** Shifts and masks as quotients and remainders *)

Lemma lor_disjoint (a b k : Z) :
  0 <= k -> a mod 2 ^ k = 0 -> 0 <= b < 2 ^ k -> Z.lor a b = a + b.
Proof.
  intros Hk Ha Hb.
  assert (L : Z.land a b = 0).
  { apply Z.bits_inj'. intros n Hn. rewrite Z.land_spec, Z.bits_0.
    destruct (Z.lt_ge_cases n k) as [Hlt|Hge].
    - rewrite (Z.div_mod a (2 ^ k)), Ha, Z.add_0_r, Z.mul_comm by lia.
      rewrite Z.mul_pow2_bits_low by lia. reflexivity.
    - rewrite <- (Z.mod_small b (2 ^ k)) by lia.
      rewrite Z.mod_pow2_bits_high by lia. apply andb_false_r. }
  pose proof (Z.add_lor_land a b). lia.
Qed.

Lemma lor_times (a b m k : Z) :
  0 <= k -> m = 2 ^ k -> 0 <= b < m -> Z.lor (a * m) b = a * m + b.
Proof.
  intros Hk -> Hb. apply (lor_disjoint _ _ k); try assumption.
  apply Z.mod_mul. lia.
Qed.

Lemma land_3 a : Z.land a 3 = a mod 4.
Proof. exact (Z.land_ones a 2 ltac:(lia)). Qed.
Lemma land_7 a : Z.land a 7 = a mod 8.
Proof. exact (Z.land_ones a 3 ltac:(lia)). Qed.
Lemma land_15 a : Z.land a 15 = a mod 16.
Proof. exact (Z.land_ones a 4 ltac:(lia)). Qed.
Lemma land_31 a : Z.land a 31 = a mod 32.
Proof. exact (Z.land_ones a 5 ltac:(lia)). Qed.
Lemma land_63 a : Z.land a 63 = a mod 64.
Proof. exact (Z.land_ones a 6 ltac:(lia)). Qed.
Lemma land_1023 a : Z.land a 1023 = a mod 1024.
Proof. exact (Z.land_ones a 10 ltac:(lia)). Qed.

Lemma shiftr_2 a : Z.shiftr a 2 = a / 4.
Proof. exact (Z.shiftr_div_pow2 a 2 ltac:(lia)). Qed.
Lemma shiftr_4 a : Z.shiftr a 4 = a / 16.
Proof. exact (Z.shiftr_div_pow2 a 4 ltac:(lia)). Qed.
Lemma shiftr_6 a : Z.shiftr a 6 = a / 64.
Proof. exact (Z.shiftr_div_pow2 a 6 ltac:(lia)). Qed.
Lemma shiftr_10 a : Z.shiftr a 10 = a / 1024.
Proof. exact (Z.shiftr_div_pow2 a 10 ltac:(lia)). Qed.
Lemma shiftr_12 a : Z.shiftr a 12 = a / 4096.
Proof. exact (Z.shiftr_div_pow2 a 12 ltac:(lia)). Qed.
Lemma shiftr_18 a : Z.shiftr a 18 = a / 262144.
Proof. exact (Z.shiftr_div_pow2 a 18 ltac:(lia)). Qed.

Lemma shiftl_2 a : Z.shiftl a 2 = a * 4.
Proof. exact (Z.shiftl_mul_pow2 a 2 ltac:(lia)). Qed.
Lemma shiftl_4 a : Z.shiftl a 4 = a * 16.
Proof. exact (Z.shiftl_mul_pow2 a 4 ltac:(lia)). Qed.
Lemma shiftl_6 a : Z.shiftl a 6 = a * 64.
Proof. exact (Z.shiftl_mul_pow2 a 6 ltac:(lia)). Qed.
Lemma shiftl_10 a : Z.shiftl a 10 = a * 1024.
Proof. exact (Z.shiftl_mul_pow2 a 10 ltac:(lia)). Qed.

Lemma lor_4 a b : 0 <= b < 4 -> Z.lor (a * 4) b = a * 4 + b.
Proof. now apply (lor_times a b 4 2). Qed.
Lemma lor_16 a b : 0 <= b < 16 -> Z.lor (a * 16) b = a * 16 + b.
Proof. now apply (lor_times a b 16 4). Qed.
Lemma lor_64 a b : 0 <= b < 64 -> Z.lor (a * 64) b = a * 64 + b.
Proof. now apply (lor_times a b 64 6). Qed.
Lemma lor_0x80 b : 0 <= b < 64 -> Z.lor 0x80 b = 0x80 + b.
Proof. intros. now apply (lor_disjoint 0x80 b 6). Qed.
Lemma lor_0xC0 b : 0 <= b < 32 -> Z.lor 0xC0 b = 0xC0 + b.
Proof. intros. apply (lor_disjoint 0xC0 b 5); [lia | reflexivity | simpl; lia]. Qed.
Lemma lor_0xE0 b : 0 <= b < 16 -> Z.lor 0xE0 b = 0xE0 + b.
Proof. intros. apply (lor_disjoint 0xE0 b 4); [lia | reflexivity | simpl; lia]. Qed.
Lemma lor_0xF0 b : 0 <= b < 8 -> Z.lor 0xF0 b = 0xF0 + b.
Proof. intros. apply (lor_disjoint 0xF0 b 3); [lia | reflexivity | simpl; lia]. Qed.

Create Rewrite HintDb bits.
#[local] Hint Rewrite land_3 land_7 land_15 land_31 land_63 land_1023
  shiftr_2 shiftr_4 shiftr_6 shiftr_10 shiftr_12 shiftr_18
  shiftl_2 shiftl_4 shiftl_6 shiftl_10 : bits.

Ltac euclid := Z.div_mod_to_equations; lia.

(** Rewrites the shifts, masks and disjoint ors of the goal into [*], [/],
    [mod] and [+]. *)
Ltac to_arith :=
  autorewrite with bits;
  repeat first [ rewrite lor_4 by euclid | rewrite lor_16 by euclid
               | rewrite lor_64 by euclid | rewrite lor_0x80 by euclid
               | rewrite lor_0xC0 by euclid | rewrite lor_0xE0 by euclid
               | rewrite lor_0xF0 by euclid ].

Ltac in_range := unfold is_sextet, is_byte, is_scalar in *; to_arith; euclid.

(** ** Base64 *)

Lemma sextet_cases (v : Z) : is_sextet v -> In v (map Z.of_nat (seq 0 64)).
Proof.
  intros H. apply in_map_iff. exists (Z.to_nat v).
  unfold is_sextet in H. split; [lia | apply in_seq; lia].
Qed.

Lemma digit_ok_sextet (v : Z) : is_sextet v -> digit_ok v = true.
Proof.
  intros H. apply sextet_cases in H. revert v H. apply forallb_forall.
  vm_compute. reflexivity.
Qed.

Lemma unbase64_digit (v : Z) : is_sextet v -> unbase64 (base64_digit v) = Some v.
Proof.
  intros H. apply digit_ok_sextet in H. unfold digit_ok in H.
  apply andb_prop in H as [H _]. apply andb_prop in H as [H _].
  destruct (unbase64 (base64_digit v)) as [w|]; [|discriminate].
  apply Z.eqb_eq in H. now subst.
Qed.

Lemma base64_digit_not_equals (v : Z) :
  is_sextet v -> (base64_digit v =? EQUALS) = false.
Proof.
  intros H. apply digit_ok_sextet in H. unfold digit_ok in H.
  apply andb_prop in H as [H _]. apply andb_prop in H as [_ H].
  now apply negb_true_iff in H.
Qed.

Lemma base64_digit_not_space (v : Z) : is_sextet v -> base64_digit v <> SPACE.
Proof.
  intros H. apply digit_ok_sextet in H. unfold digit_ok in H.
  apply andb_prop in H as [_ H].
  apply negb_true_iff in H. now apply Z.eqb_neq in H.
Qed.

Lemma sextets_digit (v : Z) (r : jsstring) :
  is_sextet v -> sextets (base64_digit v :: r) = v :: sextets r.
Proof.
  intros H. cbn [sextets].
  now rewrite base64_digit_not_equals, unbase64_digit.
Qed.

Lemma sextets_equals (r : jsstring) : sextets (EQUALS :: r) = [].
Proof. reflexivity. Qed.

(** Decoding what [toString("base64")] wrote gives the bytes back. *)
Lemma base64_decode_encode (b : bytes) :
  Forall is_byte b -> base64_decode (base64_encode b) = b.
Proof.
  unfold base64_decode.
  induction b as [|x|x y|x y z r IH] using list_ind3; intros Hb.
  - reflexivity.
  - apply Forall_cons_iff in Hb as [Hx _].
    cbn [base64_encode].
    rewrite !sextets_digit, sextets_equals by in_range.
    cbn [unsextets]. f_equal. in_range.
  - apply Forall_cons_iff in Hb as [Hx Hb].
    apply Forall_cons_iff in Hb as [Hy _].
    cbn [base64_encode].
    rewrite !sextets_digit, sextets_equals by in_range.
    cbn [unsextets]. f_equal; [|f_equal]; in_range.
  - apply Forall_cons_iff in Hb as [Hx Hb].
    apply Forall_cons_iff in Hb as [Hy Hb].
    apply Forall_cons_iff in Hb as [Hz Hb].
    cbn [base64_encode].
    rewrite !sextets_digit by in_range.
    cbn [unsextets]. rewrite (IH Hb).
    f_equal; [|f_equal; [|f_equal]]; in_range.
Qed.

(** Base64 text contains no space. *)
Lemma base64_encode_no_space (b : bytes) :
  Forall is_byte b -> ~ In SPACE (base64_encode b).
Proof.
  induction b as [|x|x y|x y z r IH] using list_ind3; intros Hb; cbn [base64_encode In].
  - tauto.
  - apply Forall_cons_iff in Hb as [Hx _].
    intros [E|[E|[E|[E|[]]]]]; try discriminate E;
      revert E; apply base64_digit_not_space; in_range.
  - apply Forall_cons_iff in Hb as [Hx Hb].
    apply Forall_cons_iff in Hb as [Hy _].
    intros [E|[E|[E|[E|[]]]]]; try discriminate E;
      revert E; apply base64_digit_not_space; in_range.
  - apply Forall_cons_iff in Hb as [Hx Hb].
    apply Forall_cons_iff in Hb as [Hy Hb].
    apply Forall_cons_iff in Hb as [Hz Hb].
    intros [E|[E|[E|[E|E]]]]; [| | | |now apply (IH Hb)];
      revert E; apply base64_digit_not_space; in_range.
Qed.

(** ** UTF-8 and UTF-16 *)

Lemma utf8_lead_1 (b : Z) : b <= 0x7F -> utf8_lead b = (Boundary, [b]).
Proof.
  intros H. unfold utf8_lead. now destruct (Z.leb_spec b 0x7F); [|lia].
Qed.

Lemma utf8_lead_2 (b : Z) :
  0xC2 <= b <= 0xDF -> utf8_lead b = (Inside (Z.land b 0x1F) 1 0x80 0xBF, []).
Proof.
  intros H. unfold utf8_lead.
  destruct (Z.leb_spec b 0x7F); [lia|].
  destruct (Z.leb_spec 0xC2 b); [|lia].
  destruct (Z.leb_spec b 0xDF); [|lia].
  reflexivity.
Qed.

Lemma utf8_lead_3 (b : Z) :
  0xE0 <= b <= 0xEF ->
  utf8_lead b =
  (Inside (Z.land b 0xF) 2
     (if b =? 0xE0 then 0xA0 else 0x80) (if b =? 0xED then 0x9F else 0xBF), []).
Proof.
  intros H. unfold utf8_lead.
  destruct (Z.leb_spec b 0x7F); [lia|].
  destruct (Z.leb_spec 0xC2 b); [|lia].
  destruct (Z.leb_spec b 0xDF); [lia|].
  destruct (Z.leb_spec 0xE0 b); [|lia].
  destruct (Z.leb_spec b 0xEF); [|lia].
  reflexivity.
Qed.

Lemma utf8_lead_4 (b : Z) :
  0xF0 <= b <= 0xF4 ->
  utf8_lead b =
  (Inside (Z.land b 0x7) 3
     (if b =? 0xF0 then 0x90 else 0x80) (if b =? 0xF4 then 0x8F else 0xBF), []).
Proof.
  intros H. unfold utf8_lead.
  destruct (Z.leb_spec b 0x7F); [lia|].
  destruct (Z.leb_spec 0xC2 b); [|lia].
  destruct (Z.leb_spec b 0xDF); [lia|].
  destruct (Z.leb_spec 0xE0 b); [|lia].
  destruct (Z.leb_spec b 0xEF); [lia|].
  destruct (Z.leb_spec 0xF0 b); [|lia].
  destruct (Z.leb_spec b 0xF4); [|lia].
  reflexivity.
Qed.

Lemma utf8_decode_boundary (x : Z) (r : bytes) :
  utf8_decode_from Boundary (x :: r) =
  snd (utf8_lead x) ++ utf8_decode_from (fst (utf8_lead x)) r.
Proof. cbn [utf8_decode_from]. now destruct (utf8_lead x). Qed.

Lemma utf8_decode_last (cp lower upper x : Z) (r : bytes) :
  lower <= x <= upper ->
  utf8_decode_from (Inside cp 1 lower upper) (x :: r) =
  Z.lor (Z.shiftl cp 6) (Z.land x 0x3F) :: utf8_decode_from Boundary r.
Proof.
  intros H. cbn [utf8_decode_from].
  destruct (Z.leb_spec lower x); [|lia].
  destruct (Z.leb_spec x upper); [|lia].
  reflexivity.
Qed.

Lemma utf8_decode_more (cp lower upper x : Z) (due : nat) (r : bytes) :
  lower <= x <= upper ->
  utf8_decode_from (Inside cp (S (S due)) lower upper) (x :: r) =
  utf8_decode_from (Inside (Z.lor (Z.shiftl cp 6) (Z.land x 0x3F)) (S due) 0x80 0xBF) r.
Proof.
  intros H. cbn [utf8_decode_from].
  destruct (Z.leb_spec lower x); [|lia].
  destruct (Z.leb_spec x upper); [|lia].
  reflexivity.
Qed.

(** The decoder reads the bytes of one scalar value back as that value. *)
Lemma utf8_decode_bytes (cp : Z) (r : bytes) :
  is_scalar cp ->
  utf8_decode_from Boundary (utf8_bytes cp ++ r) = cp :: utf8_decode_from Boundary r.
Proof.
  unfold is_scalar, utf8_bytes. intros H.
  destruct (Z.ltb_spec cp 0x80); [|destruct (Z.ltb_spec cp 0x800);
                                    [|destruct (Z.ltb_spec cp 0x10000)]];
    cbn [app]; to_arith; rewrite utf8_decode_boundary.
  - rewrite utf8_lead_1 by lia. reflexivity.
  - rewrite utf8_lead_2 by euclid. cbn [fst snd app].
    rewrite utf8_decode_last by euclid. f_equal. to_arith. euclid.
  - rewrite utf8_lead_3 by euclid. cbn [fst snd app].
    rewrite utf8_decode_more
      by (destruct (Z.eqb_spec (224 + cp / 4096) 0xE0);
          destruct (Z.eqb_spec (224 + cp / 4096) 0xED); euclid).
    rewrite utf8_decode_last by euclid. f_equal. to_arith. euclid.
  - rewrite utf8_lead_4 by euclid. cbn [fst snd app].
    rewrite utf8_decode_more
      by (destruct (Z.eqb_spec (240 + cp / 262144) 0xF0);
          destruct (Z.eqb_spec (240 + cp / 262144) 0xF4); euclid).
    rewrite utf8_decode_more by euclid.
    rewrite utf8_decode_last by euclid. f_equal. to_arith. euclid.
Qed.

Lemma utf8_decode_encode (cps : list Z) :
  Forall is_scalar cps -> utf8_decode_from Boundary (flat_map utf8_bytes cps) = cps.
Proof.
  induction 1 as [|cp cps Hcp _ IH]; [reflexivity|].
  cbn [flat_map]. now rewrite utf8_decode_bytes, IH.
Qed.

Lemma utf8_bytes_is_byte (cp : Z) : is_scalar cp -> Forall is_byte (utf8_bytes cp).
Proof.
  unfold is_scalar, utf8_bytes, is_byte. intros H.
  destruct (Z.ltb_spec cp 0x80); [|destruct (Z.ltb_spec cp 0x800);
                                    [|destruct (Z.ltb_spec cp 0x10000)]];
    to_arith; repeat (apply Forall_cons; [euclid|]); apply Forall_nil.
Qed.

Lemma utf16_units_bmp (c : Z) : c < 0x10000 -> utf16_units c = [c].
Proof.
  intros H. unfold utf16_units. now destruct (Z.ltb_spec c 0x10000); [|lia].
Qed.

Lemma scalar_values_cons (c : code_unit) (r : jsstring) :
  scalar_values (c :: r) =
  if is_high_surrogate c then
    match r with
    | d :: r' =>
        if is_low_surrogate d
        then (0x10000 + Z.shiftl (c - 0xD800) 10 + (d - 0xDC00)) :: scalar_values r'
        else REPLACEMENT :: scalar_values r
    | [] => [REPLACEMENT]
    end
  else if is_low_surrogate c then REPLACEMENT :: scalar_values r
  else c :: scalar_values r.
Proof. reflexivity. Qed.

Lemma well_formed_cons (c : code_unit) (r : jsstring) :
  well_formed (c :: r) =
  if is_high_surrogate c then
    match r with
    | d :: r' => is_low_surrogate d && well_formed r'
    | [] => false
    end
  else negb (is_low_surrogate c) && (0 <=? c) && (c <=? 0xFFFF) && well_formed r.
Proof. reflexivity. Qed.

Lemma not_surrogate_scalar (c : code_unit) :
  is_high_surrogate c = false -> is_low_surrogate c = false ->
  0 <= c -> c <= 0xFFFF -> is_scalar c.
Proof.
  unfold is_high_surrogate, is_low_surrogate, is_scalar.
  destruct (Z.leb_spec 0xD800 c), (Z.leb_spec c 0xDBFF), (Z.leb_spec 0xDC00 c),
    (Z.leb_spec c 0xDFFF); cbn [andb]; try discriminate; lia.
Qed.

(** A string without lone surrogates is the UTF-16 form of its scalar
    values. *)
Lemma scalar_values_well_formed (s : jsstring) :
  well_formed s = true ->
  Forall is_scalar (scalar_values s) /\ flat_map utf16_units (scalar_values s) = s.
Proof.
  induction s as [|c|c d r IHr IHd] using list_ind2.
  - intros _. split; [constructor | reflexivity].
  - rewrite well_formed_cons, scalar_values_cons.
    destruct (is_high_surrogate c) eqn:Hc; [discriminate|].
    destruct (is_low_surrogate c) eqn:Hl; [discriminate|].
    cbn [negb andb well_formed]. rewrite andb_true_r. intros H.
    apply andb_prop in H as [H0 H1]. apply Z.leb_le in H0, H1.
    split.
    + constructor; [now apply not_surrogate_scalar | constructor].
    + cbn [scalar_values flat_map app]. now rewrite utf16_units_bmp by lia.
  - rewrite well_formed_cons, scalar_values_cons.
    destruct (is_high_surrogate c) eqn:Hc.
    + destruct (is_low_surrogate d) eqn:Hd; [|discriminate].
      cbn [andb]. intros Hr. destruct (IHr Hr) as [S1 S2].
      unfold is_high_surrogate in Hc. unfold is_low_surrogate in Hd.
      apply andb_prop in Hc as [Hc1 Hc2]. apply andb_prop in Hd as [Hd1 Hd2].
      apply Z.leb_le in Hc1, Hc2, Hd1, Hd2.
      split.
      * constructor; [|exact S1]. unfold is_scalar. to_arith. lia.
      * cbn [flat_map]. rewrite S2. unfold utf16_units. to_arith.
        destruct (Z.ltb_spec (65536 + (c - 55296) * 1024 + (d - 56320)) 65536); [lia|].
        cbn [app]. f_equal; [|f_equal]; euclid.
    + destruct (is_low_surrogate c) eqn:Hl; [discriminate|].
      cbn [negb andb]. intros H.
      apply andb_prop in H as [H Hr]. apply andb_prop in H as [H0 H1].
      apply Z.leb_le in H0, H1.
      destruct (IHd Hr) as [S1 S2].
      split.
      * constructor; [|exact S1]. now apply not_surrogate_scalar.
      * cbn [flat_map]. rewrite S2, utf16_units_bmp by lia. reflexivity.
Qed.

Lemma utf8_is_byte (s : jsstring) : well_formed s = true -> Forall is_byte (utf8 s).
Proof.
  intros H. apply scalar_values_well_formed in H as [H _]. unfold utf8.
  induction H as [|cp cps Hcp _ IH]; [constructor|].
  cbn [flat_map]. apply Forall_app. split; [now apply utf8_bytes_is_byte | exact IH].
Qed.

(** Reading the UTF-8 bytes of a well-formed string gives the string
    back. *)
Lemma Buffer_toString_utf8 (s : jsstring) :
  well_formed s = true -> Buffer_toString (utf8 s) = s.
Proof.
  intros H. apply scalar_values_well_formed in H as [H1 H2].
  unfold Buffer_toString, utf8. now rewrite utf8_decode_encode.
Qed.

(** ** The verifier *)

Lemma hashPassword_Ok (password : value) :
  hashPassword password = Ok (digest_text password).
Proof. reflexivity. Qed.

Lemma isValidPassword_Ok (password hashedPassword : value) :
  isValidPassword password hashedPassword =
  Ok (strict_eq (Str (digest_text password)) hashedPassword).
Proof. reflexivity. Qed.

(** [undefined] is hashed as the empty string is. *)
Lemma digest_text_Undefined : digest_text Undefined = digestOf [].
Proof. reflexivity. Qed.

(** Published SHA-512 test vectors (FIPS 180-4 examples), in base64. *)
Example SHA512_abc :
  base64_encode (SHA512.digest (utf8 (js "abc"))) =
  js "3a81oZNherrMQXNJriBBMRLm+k6JqX6iCp7u5ktV05ohkpkqJ0/BqDa6PCOj/uu9RU1EI2Q86A4qmslPpUyknw==".
Proof. vm_compute. reflexivity. Qed.

Example SHA512_empty :
  base64_encode (SHA512.digest (utf8 (js ""))) =
  js "z4PhNX7vuL3xVChQ1m2AB9Yg5AULVxXcg/SpIdNs6c5H0NE8XYXysP+DGNKHfuwvY7kxvUdBeoGlODJ6+SfaPg==".
Proof. vm_compute. reflexivity. Qed.

Example SHA512_two_blocks :
  base64_encode (SHA512.digest (utf8 (js
    "abcdefghbcdefghicdefghijdefghijkefghijklfghijklmghijklmnhijklmnoijklmnopjklmnopqklmnopqrlmnopqrsmnopqrstnopqrstu"))) =
  js "jpWbddrjE9qM9PcoFPwUP493ecbrn3+hcpmurbaIkBhQHSieSQD35DMbmd7EtUM6x9Mp7rbdJlReluVbh0vpCQ==".
Proof. vm_compute. reflexivity. Qed.

(** C4. For all strings [password] and [storedDigest], the verifier answers
    [true] exactly when the base64 text of the SHA-512 digest of the UTF-8
    bytes of [password] is the string [storedDigest], and [false] exactly
    when it is another string. *)
Theorem isValidPassword_spec (password storedDigest : jsstring) :
  (isValidPassword (Str password) (Str storedDigest) = Ok true <->
   base64_encode (SHA512.digest (utf8 password)) = storedDigest) /\
  (isValidPassword (Str password) (Str storedDigest) = Ok false <->
   base64_encode (SHA512.digest (utf8 password)) <> storedDigest).
Proof.
  rewrite isValidPassword_Ok.
  change (digest_text (Str password))
    with (base64_encode (SHA512.digest (utf8 password))).
  generalize (base64_encode (SHA512.digest (utf8 password))). intros h.
  cbn [strict_eq]. split.
  - rewrite <- str_eqb_eq. split; [now intros [= ->] | now intros ->].
  - rewrite <- str_eqb_neq. split; [now intros [= ->] | now intros ->].
Qed.

(** ** Decoding the header *)

(** The token after the first space is what gets decoded; the text is cut at
    every colon and the first two pieces are kept. *)
Lemma credentials_token (a token : jsstring) :
  index (split SPACE a) 1 = Str token ->
  credentials a =
  Ok (Str (before COLON (Buffer_toString (base64_decode token))),
      index (split COLON (Buffer_toString (base64_decode token))) 1).
Proof.
  intros H. unfold credentials. rewrite H. cbn [Buffer_from_base64 bind].
  now rewrite index_split_0.
Qed.

(** A header value with no space has no second token, and decoding it
    throws. *)
Lemma credentials_no_space (a : jsstring) :
  ~ In SPACE a -> credentials a = Throw TypeError.
Proof.
  intros H. unfold credentials. now rewrite split_without.
Qed.

(** The first destructured name is always bound to a string. *)
Lemma credentials_username (a : jsstring) (u p : value) :
  credentials a = Ok (u, p) -> exists s, u = Str s.
Proof.
  unfold credentials, bind.
  destruct (Buffer_from_base64 _) as [buffer|]; [|discriminate].
  intros H. injection H as <- _. rewrite index_split_0. eauto.
Qed.

(** A decoded text without a colon is all username, and the password is
    [undefined]. *)
Lemma credentials_colon_free (a token s : jsstring) :
  index (split SPACE a) 1 = Str token ->
  Buffer_toString (base64_decode token) = s ->
  ~ In COLON s ->
  credentials a = Ok (Str s, Undefined).
Proof.
  intros Ht Hs Hc.
  rewrite (credentials_token a token Ht), Hs.
  now rewrite before_without, split_without.
Qed.

(** A decoded text [u:p] gives the username [u]; the password is [p] up to
    its first colon. *)
Lemma credentials_colon (a token u p : jsstring) :
  index (split SPACE a) 1 = Str token ->
  Buffer_toString (base64_decode token) = u ++ COLON :: p ->
  ~ In COLON u ->
  credentials a = Ok (Str u, Str (before COLON p)).
Proof.
  intros Ht Hs Hu.
  rewrite (credentials_token a token Ht), Hs.
  rewrite before_first, split_first by assumption.
  change (index (u :: split COLON p) 1) with (index (split COLON p) 0).
  now rewrite index_split_0.
Qed.

(** The token of [<scheme> <base64(text)>] is the base64 text. *)
Lemma basic_header_token (scheme text : jsstring) :
  ~ In SPACE scheme -> well_formed text = true ->
  index (split SPACE (basic_header scheme text)) 1 = Str (base64_encode (utf8 text)).
Proof.
  intros Hs Hw. unfold basic_header.
  rewrite split_first by assumption.
  rewrite split_without by now apply base64_encode_no_space, utf8_is_byte.
  reflexivity.
Qed.

(** From the header [<scheme> <base64(u:p)>] the middleware reads the username [u]
    and, as the password, [p] up to its first colon. *)
Lemma credentials_basic_header (scheme u p : jsstring) :
  ~ In SPACE scheme ->
  well_formed (u ++ COLON :: p) = true ->
  ~ In COLON u ->
  credentials (basic_header scheme (u ++ COLON :: p)) =
  Ok (Str u, Str (before COLON p)).
Proof.
  intros Hs Hw Hu.
  apply (credentials_colon _ _ u p (basic_header_token scheme _ Hs Hw)); [|assumption].
  rewrite base64_decode_encode by now apply utf8_is_byte.
  now apply Buffer_toString_utf8.
Qed.

(** ** The verdict *)

Lemma verdict_allow (env : Env) (u p : value) :
  verdict env u p = None <->
  ADMIN_USERNAME env = u /\ HASHED_ADMIN_PASSWORD env = Str (digest_text p).
Proof.
  unfold verdict. generalize (digest_text p). intros d.
  destruct (strict_eq u (ADMIN_USERNAME env)) eqn:Eu;
    [destruct (strict_eq (Str d) (HASHED_ADMIN_PASSWORD env)) eqn:Ed|]; cbn [andb].
  - apply strict_eq_true in Eu, Ed. split; auto.
  - apply strict_eq_false in Ed. split; [discriminate|]. intros [_ E]. congruence.
  - apply strict_eq_false in Eu. split; [discriminate|]. intros [E _]. congruence.
Qed.

Lemma verdict_cases (env : Env) (u p : value) :
  verdict env u p = None \/ verdict env u p = Some Unauthorized.
Proof. unfold verdict. destruct (_ && _); auto. Qed.

Lemma verdict_reject (env : Env) (u p : value) :
  verdict env u p = Some Unauthorized <->
  ~ (ADMIN_USERNAME env = u /\ HASHED_ADMIN_PASSWORD env = Str (digest_text p)).
Proof.
  rewrite <- verdict_allow.
  destruct (verdict_cases env u p) as [-> | ->]; split; congruence.
Qed.

(** ** The middleware *)

Section Middleware.

Variable env : Env.
Variable req : NextRequest.

(** The answer is decided by [isAuthenticated]. *)
Lemma middleware_cases :
  middleware env req =
  match isAuthenticated env req with
  | Ok true => Ok None
  | Ok false => Ok (Some Unauthorized)
  | Throw e => Throw e
  end.
Proof.
  unfold middleware, bind. now destruct (isAuthenticated env req) as [[|]|].
Qed.

Lemma middleware_no_header :
  authHeader_of req = None -> middleware env req = Ok (Some Unauthorized).
Proof.
  intros H. rewrite middleware_cases. unfold isAuthenticated. now rewrite H.
Qed.

Lemma middleware_throws (a : jsstring) (e : error) :
  authHeader_of req = Some a -> credentials a = Throw e ->
  middleware env req = Throw e.
Proof.
  intros Ha Hc. rewrite middleware_cases. unfold isAuthenticated.
  now rewrite Ha, Hc.
Qed.

(** Once the header is decoded the answer is the [verdict] on the two
    pieces. *)
Lemma middleware_credentials (a : jsstring) (u p : value) :
  authHeader_of req = Some a -> credentials a = Ok (u, p) ->
  middleware env req = Ok (verdict env u p).
Proof.
  intros Ha Hc. rewrite middleware_cases. unfold isAuthenticated, verdict.
  rewrite Ha, Hc. cbn [bind fst snd].
  destruct (strict_eq u (ADMIN_USERNAME env)); [|reflexivity].
  rewrite isValidPassword_Ok. cbn [andb].
  now destruct (strict_eq _ (HASHED_ADMIN_PASSWORD env)).
Qed.

(** C5. A request with no Authorization header, whatever the casing of the
    header names it does carry, is answered with status 401, the body
    "Unauthorized" and the header [WWW-Authenticate: Basic]. *)
Theorem missing_header_rejected :
  (forall n v, In (n, v) (headers req) -> lowercase n <> js "authorization") ->
  exists r : NextResponse,
    middleware env req = Ok (Some r) /\
    status r = 401 /\
    body r = js "Unauthorized" /\
    response_headers r = [(js "WWW-Authenticate", js "Basic")].
Proof.
  intros H. exists Unauthorized. repeat split.
  apply middleware_no_header.
  rewrite authHeader_of_get. unfold Headers_get.
  rewrite header_values_absent; [reflexivity|].
  intros n v Hin. now apply (H n v).
Qed.

(** C7. When the expected username or the stored digest is not provisioned,
    no request is let through: the middleware never returns "allow", and whenever
    it returns, it returns the 401 rejection. *)
Theorem absent_config_denies :
  ADMIN_USERNAME env = Undefined \/ HASHED_ADMIN_PASSWORD env = Undefined ->
  middleware env req <> Ok None /\
  (forall o, middleware env req = Ok o -> o = Some Unauthorized).
Proof.
  intros Habsent.
  destruct (authHeader_of req) as [a|] eqn:Ha.
  - destruct (credentials a) as [[u p]|e] eqn:Hc.
    + rewrite (middleware_credentials a u p Ha Hc).
      assert (V : verdict env u p = Some Unauthorized).
      { apply verdict_reject. intros [Eu Ep].
        destruct (credentials_username a u p Hc) as [s ->].
        destruct Habsent; congruence. }
      rewrite V. split; [discriminate | now intros o [= <-]].
    + rewrite (middleware_throws a e Ha Hc). split; discriminate.
  - rewrite (middleware_no_header Ha).
    split; [discriminate | now intros o [= <-]].
Qed.


End Middleware.

Lemma missing_header_rejected_witness :
  exists r : NextResponse,
    middleware sample_env
      {| headers := [(js "Accept", js "text/html"); (js "Cookie", js "a=b")] |}
    = Ok (Some r) /\
    status r = 401 /\
    body r = js "Unauthorized" /\
    response_headers r = [(js "WWW-Authenticate", js "Basic")].
Proof.
  apply missing_header_rejected.
  intros n v [E | [E | []]]; injection E as <- <-; vm_compute; discriminate.
Defined.

Lemma absent_config_denies_witness :
  middleware unset_digest_env (request_with (js "Basic YWRtaW46c2VjcmV0")) <> Ok None /\
  (forall o,
      middleware unset_digest_env (request_with (js "Basic YWRtaW46c2VjcmV0")) = Ok o ->
      o = Some Unauthorized).
Proof.
  apply absent_config_denies. right. reflexivity.
Defined.


(** The request the colon-free payload lets through when the stored digest is
    the digest of the empty string. *)
Example colon_free_payload_allowed :
  middleware empty_password_env (request_with (js "Basic YWRtaW4=")) = Ok None.
Proof. vm_compute. reflexivity. Qed.

(** A header [<scheme> <base64(u:p)>] with another username than the
    expected one is a username mismatch; with the expected username and a
    password whose digest is not the stored one it is a password mismatch. *)
Lemma username_mismatch_basic_header
      (env : Env) (req : NextRequest) (scheme u p : jsstring) :
  authHeader_of req = Some (basic_header scheme (u ++ COLON :: p)) ->
  ~ In SPACE scheme ->
  well_formed (u ++ COLON :: p) = true ->
  ~ In COLON u ->
  ADMIN_USERNAME env <> Str u ->
  username_mismatch env req.
Proof.
  intros Ha Hs Hw Hu Hne.
  exists (basic_header scheme (u ++ COLON :: p)), (Str u), (Str (before COLON p)).
  split; [exact Ha|]. split; [now apply credentials_basic_header|].
  apply strict_eq_false. congruence.
Qed.

Lemma password_mismatch_basic_header
      (env : Env) (req : NextRequest) (scheme u p : jsstring) :
  authHeader_of req = Some (basic_header scheme (u ++ COLON :: p)) ->
  ~ In SPACE scheme ->
  well_formed (u ++ COLON :: p) = true ->
  ~ In COLON u ->
  ADMIN_USERNAME env = Str u ->
  HASHED_ADMIN_PASSWORD env <> Str (digestOf (before COLON p)) ->
  password_mismatch env req.
Proof.
  intros Ha Hs Hw Hu Heq Hne.
  exists (basic_header scheme (u ++ COLON :: p)), (Str u), (Str (before COLON p)).
  split; [exact Ha|]. split; [now apply credentials_basic_header|].
  split; [apply strict_eq_true; congruence|].
  rewrite isValidPassword_Ok. f_equal.
  apply strict_eq_false. unfold digestOf in Hne. congruence.
Qed.

(** C8. A request refused for its username and a request refused for its
    password get the same response: status, body and headers are equal. *)
Theorem rejections_indistinguishable (env : Env) (req1 req2 : NextRequest) :
  username_mismatch env req1 ->
  password_mismatch env req2 ->
  middleware env req1 = middleware env req2 /\
  exists r1 r2 : NextResponse,
    middleware env req1 = Ok (Some r1) /\
    middleware env req2 = Ok (Some r2) /\
    status r1 = status r2 /\
    body r1 = body r2 /\
    response_headers r1 = response_headers r2.
Proof.
  intros (a1 & u1 & p1 & Ha1 & Hc1 & Hu1) (a2 & u2 & p2 & Ha2 & Hc2 & Hu2 & Hp2).
  assert (M1 : middleware env req1 = Ok (Some Unauthorized)).
  { rewrite (middleware_credentials env req1 a1 u1 p1 Ha1 Hc1). f_equal.
    apply verdict_reject. intros [E _].
    apply strict_eq_false in Hu1. congruence. }
  assert (M2 : middleware env req2 = Ok (Some Unauthorized)).
  { rewrite (middleware_credentials env req2 a2 u2 p2 Ha2 Hc2). f_equal.
    apply verdict_reject. intros [_ E].
    rewrite isValidPassword_Ok in Hp2.
    assert (Hf : strict_eq (Str (digest_text p2)) (HASHED_ADMIN_PASSWORD env) = false)
      by congruence.
    apply strict_eq_false in Hf. congruence. }
  split; [congruence|].
  exists Unauthorized, Unauthorized. auto.
Qed.

Lemma rejections_indistinguishable_witness :
  middleware sample_env (request_with (js "Basic cm9vdDpzZWNyZXQ="))
  = middleware sample_env (request_with (js "Basic YWRtaW46d3Jvbmc=")) /\
  exists r1 r2 : NextResponse,
    middleware sample_env (request_with (js "Basic cm9vdDpzZWNyZXQ=")) = Ok (Some r1) /\
    middleware sample_env (request_with (js "Basic YWRtaW46d3Jvbmc=")) = Ok (Some r2) /\
    status r1 = status r2 /\
    body r1 = body r2 /\
    response_headers r1 = response_headers r2.
Proof.
  apply rejections_indistinguishable.
  - exists (js "Basic cm9vdDpzZWNyZXQ="), (Str (js "root")), (Str (js "secret")).
    split; [|split]; vm_compute; reflexivity.
  - exists (js "Basic YWRtaW46d3Jvbmc="), (Str (js "admin")), (Str (js "wrong")).
    split; [|split; [|split]]; vm_compute; reflexivity.
Defined.

(** ** Headers of the form [<scheme> <base64(username:password)>] *)

(** On such a header the middleware compares the username with the expected one
    and the digest of the password, cut at its first colon, with the stored
    digest: it lets the request through when both match and answers with the
    401 otherwise. *)
Theorem middleware_basic_header (env : Env) (req : NextRequest) (scheme u p : jsstring) :
  authHeader_of req = Some (basic_header scheme (u ++ COLON :: p)) ->
  ~ In SPACE scheme ->
  well_formed (u ++ COLON :: p) = true ->
  ~ In COLON u ->
  (middleware env req = Ok None <->
   ADMIN_USERNAME env = Str u /\
   HASHED_ADMIN_PASSWORD env = Str (digestOf (before COLON p))) /\
  (middleware env req = Ok (Some Unauthorized) <->
   ~ (ADMIN_USERNAME env = Str u /\
      HASHED_ADMIN_PASSWORD env = Str (digestOf (before COLON p)))).
Proof.
  intros Ha Hs Hw Hu.
  rewrite (middleware_credentials env req _ _ _ Ha
             (credentials_basic_header scheme u p Hs Hw Hu)).
  unfold digestOf.
  pose proof (verdict_allow env (Str u) (Str (before COLON p))) as A.
  pose proof (verdict_reject env (Str u) (Str (before COLON p))) as R.
  split; [rewrite <- A | rewrite <- R]; split; congruence.
Qed.

(** When the password has no colon the comparison is with the digest of the
    whole password. *)
Corollary middleware_basic_header_colon_free
          (env : Env) (req : NextRequest) (scheme u p : jsstring) :
  authHeader_of req = Some (basic_header scheme (u ++ COLON :: p)) ->
  ~ In SPACE scheme ->
  well_formed (u ++ COLON :: p) = true ->
  ~ In COLON u ->
  ~ In COLON p ->
  (middleware env req = Ok None <->
   ADMIN_USERNAME env = Str u /\ HASHED_ADMIN_PASSWORD env = Str (digestOf p)) /\
  (middleware env req = Ok (Some Unauthorized) <->
   ~ (ADMIN_USERNAME env = Str u /\ HASHED_ADMIN_PASSWORD env = Str (digestOf p))).
Proof.
  intros Ha Hs Hw Hu Hp.
  pose proof (middleware_basic_header env req scheme u p Ha Hs Hw Hu) as G.
  now rewrite (before_without COLON p Hp) in G.
Qed.

Example middleware_basic_header_colon_free_admin :
  middleware sample_env (request_with (basic_header (js "Basic") (js "admin:secret")))
  = Ok None.
Proof.
  apply (middleware_basic_header_colon_free sample_env _ (js "Basic") (js "admin") (js "secret")).
  - apply authHeader_of_request_with.
  - simpl. unfold SPACE. lia.
  - reflexivity.
  - simpl. unfold COLON. lia.
  - simpl. unfold COLON. lia.
  - split; reflexivity.
Qed.

(** ** Passwords that contain a colon, headers without a token *)

(** C1. The payload [YWRtaW46cGE6c3M6d29yZA==] is the base64 form of
    [admin:pa:ss:word] and decodes to it; the middleware takes [admin] as the
    username and [pa], not [pa:ss:word], as the password, and it is [pa]
    that reaches the verifier. *)
Theorem colon_password_truncated :
  basic_header (js "Basic") (js "admin:pa:ss:word") = js "Basic YWRtaW46cGE6c3M6d29yZA==" /\
  Buffer_toString (base64_decode (js "YWRtaW46cGE6c3M6d29yZA==")) = js "admin:pa:ss:word" /\
  credentials (js "Basic YWRtaW46cGE6c3M6d29yZA==") = Ok (Str (js "admin"), Str (js "pa")) /\
  credentials (js "Basic YWRtaW46cGE6c3M6d29yZA==")
  <> Ok (Str (js "admin"), Str (js "pa:ss:word")).
Proof.
  split; [|split; [|split]]; vm_compute; [reflexivity | reflexivity | reflexivity | discriminate].
Qed.

(** C2. A header value that is the scheme alone has no second token:
    decoding it throws a [TypeError], whatever the configuration, and the
    middleware returns no 401. *)
Theorem scheme_only_header_throws (env : Env) :
  middleware env (request_with (js "Basic")) = Throw TypeError.
Proof.
  apply (middleware_throws env _ (js "Basic")).
  - apply authHeader_of_request_with.
  - apply credentials_no_space. simpl. unfold SPACE. lia.
Qed.

(** The same holds of every header value without a space, the empty one
    included. *)
Lemma header_without_space_throws (env : Env) (a : jsstring) :
  ~ In SPACE a -> middleware env (request_with a) = Throw TypeError.
Proof.
  intros H. apply (middleware_throws env _ a).
  - apply authHeader_of_request_with.
  - now apply credentials_no_space.
Qed.

(** C3. With the expected username [admin] and the stored digest of
    [pa:ss:word], the header carrying base64([admin:pa:ss:word]) is rejected,
    although the username is the expected one and the digest of the password
    is the stored one; it is let through when the stored digest is that of
    [pa]. *)
Theorem colon_password_rejected :
  basic_header (js "Basic") (js "admin" ++ COLON :: js "pa:ss:word")
  = js "Basic YWRtaW46cGE6c3M6d29yZA==" /\
  strict_eq (Str (js "admin")) (ADMIN_USERNAME colon_password_env) = true /\
  isValidPassword (Str (js "pa:ss:word")) (HASHED_ADMIN_PASSWORD colon_password_env)
  = Ok true /\
  middleware colon_password_env (request_with (js "Basic YWRtaW46cGE6c3M6d29yZA=="))
  = Ok (Some Unauthorized) /\
  middleware truncated_password_env (request_with (js "Basic YWRtaW46cGE6c3M6d29yZA=="))
  = Ok None.
Proof.
  split; [|split; [|split; [|split]]]; vm_compute; reflexivity.
Qed.

(** * Further properties of the middleware and the verifier *)

(** ** What the answer depends on *)

Lemma in_split_first (sep : code_unit) (s : jsstring) :
  In sep s -> exists u r, s = u ++ sep :: r /\ ~ In sep u.
Proof.
  induction s as [|c s IH]; [intros []|].
  destruct (Z.eq_dec c sep) as [->|Hne].
  - intros _. exists [], s. split; [reflexivity | intros []].
  - intros [E|H]; [congruence|].
    destruct (IH H) as (u & r & -> & Hu).
    exists (c :: u), r. split; [reflexivity|].
    intros [E|E]; [congruence | contradiction].
Qed.

Lemma before_not_in (sep : code_unit) (s : jsstring) : ~ In sep (before sep s).
Proof.
  induction s as [|c s IH]; simpl; [tauto|].
  destruct (Z.eqb_spec c sep); simpl; [tauto|].
  intros [E|E]; [congruence | contradiction].
Qed.

(** After the first space, the token runs up to the next space. *)
Lemma token_after_space (scheme rest : jsstring) :
  ~ In SPACE scheme ->
  index (split SPACE (scheme ++ SPACE :: rest)) 1 = Str (before SPACE rest).
Proof.
  intros H. rewrite split_first by assumption.
  change (index (scheme :: split SPACE rest) 1) with (index (split SPACE rest) 0).
  apply index_split_0.
Qed.

(** Every decoded pair is the text before the first colon and the second
    piece of the text. *)
Lemma credentials_shape (a : jsstring) (u p : value) :
  credentials a = Ok (u, p) ->
  exists token,
    index (split SPACE a) 1 = Str token /\
    u = Str (before COLON (Buffer_toString (base64_decode token))) /\
    p = index (split COLON (Buffer_toString (base64_decode token))) 1.
Proof.
  intros H. unfold credentials in H.
  destruct (index (split SPACE a) 1) as [|token] eqn:Ht; [discriminate|].
  exists token. split; [reflexivity|].
  cbn [Buffer_from_base64 bind] in H. rewrite index_split_0 in H.
  injection H as <- <-. auto.
Qed.

(** The answer on a header with a token is the verdict on the text decoded
    from the token. *)
Lemma middleware_token (env : Env) (req : NextRequest) (a token : jsstring) :
  authHeader_of req = Some a ->
  index (split SPACE a) 1 = Str token ->
  middleware env req =
  Ok (verdict env
        (Str (before COLON (Buffer_toString (base64_decode token))))
        (index (split COLON (Buffer_toString (base64_decode token))) 1)).
Proof.
  intros Ha Ht.
  exact (middleware_credentials env req a _ _ Ha (credentials_token a token Ht)).
Qed.

(** What letting a request through takes. *)
Lemma middleware_allowed (env : Env) (req : NextRequest) :
  middleware env req = Ok None ->
  exists a token,
    authHeader_of req = Some a /\
    index (split SPACE a) 1 = Str token /\
    ADMIN_USERNAME env = Str (before COLON (Buffer_toString (base64_decode token))) /\
    HASHED_ADMIN_PASSWORD env =
    Str (digest_text (index (split COLON (Buffer_toString (base64_decode token))) 1)).
Proof.
  intros M. destruct (authHeader_of req) as [a|] eqn:Ha.
  - destruct (credentials a) as [[u p]|e] eqn:Hc.
    + rewrite (middleware_credentials env req a u p Ha Hc) in M.
      injection M as M. apply verdict_allow in M as [Mu Mp].
      destruct (credentials_shape a u p Hc) as (token & Ht & -> & ->).
      exists a, token. auto.
    + rewrite (middleware_throws env req a e Ha Hc) in M. discriminate.
  - rewrite (middleware_no_header env req Ha) in M. discriminate.
Qed.

(** The answer depends on the request through its Authorization header
    only. *)
Lemma middleware_same_header (env : Env) (req1 req2 : NextRequest) :
  authHeader_of req1 = authHeader_of req2 ->
  middleware env req1 = middleware env req2.
Proof.
  intros H. unfold middleware, isAuthenticated. now rewrite H.
Qed.

(** The middleware throws exactly when the header is there and its value
    has no space (the empty value included); the error is a [TypeError].
    In every other case it lets the request through or answers with the
    401: no other response is ever produced. *)
Theorem middleware_throws_iff (env : Env) (req : NextRequest) :
  (middleware env req = Throw TypeError <->
   exists a, Headers_get (headers req) (js "authorization") = Some a /\ ~ In SPACE a) /\
  (middleware env req = Ok None \/
   middleware env req = Ok (Some Unauthorized) \/
   middleware env req = Throw TypeError).
Proof.
  rewrite <- authHeader_of_get.
  destruct (authHeader_of req) as [a|] eqn:Ha.
  - destruct (in_dec Z.eq_dec SPACE a) as [Hin|Hout].
    + destruct (in_split_first SPACE a Hin) as (scheme & rest & -> & Hs).
      rewrite (middleware_token env req _ _ Ha (token_after_space scheme rest Hs)).
      split.
      * split; [discriminate|]. intros (a' & [= <-] & Hno). contradiction.
      * destruct (verdict_cases env
                    (Str (before COLON (Buffer_toString (base64_decode (before SPACE rest)))))
                    (index (split COLON (Buffer_toString (base64_decode (before SPACE rest)))) 1))
          as [-> | ->]; auto.
    + rewrite (middleware_throws env req a TypeError Ha (credentials_no_space a Hout)).
      split; [|auto]. split; [eauto | reflexivity].
  - rewrite (middleware_no_header env req Ha).
    split; [|auto]. split; [discriminate|]. intros (a' & [=] & _).
Qed.

(** The request is let through exactly when the header has a token after
    its first space, the text decoded from the token begins, up to its first
    colon, with the expected username, and the digest of the next piece (of
    the empty string when there is none) is the stored digest. *)
Theorem middleware_allows_iff (env : Env) (req : NextRequest) :
  middleware env req = Ok None <->
  exists a token,
    Headers_get (headers req) (js "authorization") = Some a /\
    index (split SPACE a) 1 = Str token /\
    ADMIN_USERNAME env = Str (before COLON (Buffer_toString (base64_decode token))) /\
    HASHED_ADMIN_PASSWORD env =
    Str (digest_text (index (split COLON (Buffer_toString (base64_decode token))) 1)).
Proof.
  rewrite <- authHeader_of_get. split.
  - apply middleware_allowed.
  - intros (a & token & Ha & Ht & Hu & Hp).
    rewrite (middleware_token env req a token Ha Ht).
    f_equal. apply verdict_allow. auto.
Qed.

(** An expected username that contains a colon matches no request: the
    username the middleware decodes never contains one. *)
Theorem colon_username_locks_out (env : Env) (req : NextRequest) (u : jsstring) :
  ADMIN_USERNAME env = Str u -> In COLON u -> middleware env req <> Ok None.
Proof.
  intros Hu Hin M. apply middleware_allowed in M as (a & token & _ & _ & Hu' & _).
  rewrite Hu in Hu'. injection Hu' as ->.
  exact (before_not_in COLON _ Hin).
Qed.

Lemma colon_username_locks_out_witness :
  middleware colon_username_env
             (request_with (basic_header (js "Basic") (js "ad:min:secret")))
  <> Ok None.
Proof.
  apply (colon_username_locks_out colon_username_env _ (js "ad:min")).
  - reflexivity.
  - simpl. unfold COLON. lia.
Defined.

(** Two headers with the same token after the first space get the same
    answer: the scheme before the space and whatever follows a second space
    are not looked at. *)
Theorem only_token_matters
        (env : Env) (req1 req2 : NextRequest) (scheme1 rest1 scheme2 rest2 : jsstring) :
  authHeader_of req1 = Some (scheme1 ++ SPACE :: rest1) ->
  authHeader_of req2 = Some (scheme2 ++ SPACE :: rest2) ->
  ~ In SPACE scheme1 ->
  ~ In SPACE scheme2 ->
  before SPACE rest1 = before SPACE rest2 ->
  middleware env req1 = middleware env req2.
Proof.
  intros H1 H2 Hs1 Hs2 E.
  rewrite (middleware_token env req1 _ _ H1 (token_after_space scheme1 rest1 Hs1)).
  rewrite (middleware_token env req2 _ _ H2 (token_after_space scheme2 rest2 Hs2)).
  now rewrite E.
Qed.

Lemma only_token_matters_witness :
  middleware sample_env (request_with (js "Basic YWRtaW46c2VjcmV0"))
  = middleware sample_env (request_with (js "Bearer YWRtaW46c2VjcmV0 and more")).
Proof.
  apply (only_token_matters sample_env _ _
           (js "Basic") (js "YWRtaW46c2VjcmV0") (js "Bearer") (js "YWRtaW46c2VjcmV0 and more")).
  - reflexivity.
  - reflexivity.
  - simpl. unfold SPACE. lia.
  - simpl. unfold SPACE. lia.
  - reflexivity.
Defined.

Lemma header_values_app (name : jsstring) (h1 h2 : Headers) :
  header_values name (h1 ++ h2) = header_values name h1 ++ header_values name h2.
Proof.
  induction h1 as [|[n v] h1 IH]; [reflexivity|].
  cbn [app header_values]. rewrite IH.
  now destruct (str_eqb (lowercase n) (lowercase name)).
Qed.

(** A header that is not named Authorization, in any casing, does not
    change the answer, wherever it stands among the headers. *)
Theorem other_headers_irrelevant
        (env : Env) (n v : jsstring) (h1 h2 : Headers) :
  lowercase n <> js "authorization" ->
  middleware env {| headers := h1 ++ (n, v) :: h2 |}
  = middleware env {| headers := h1 ++ h2 |}.
Proof.
  intros H. apply middleware_same_header.
  rewrite !authHeader_of_get. unfold Headers_get. cbn [headers].
  rewrite !header_values_app. cbn [header_values].
  destruct (str_eqb (lowercase n) (lowercase (js "authorization"))) eqn:E;
    [|reflexivity].
  apply str_eqb_eq in E. contradiction.
Qed.

Lemma other_headers_irrelevant_witness :
  middleware sample_env
    {| headers := [(js "Accept", js "text/html");
                   (js "Authorization", js "Basic YWRtaW46c2VjcmV0")]
                  ++ (js "X-Forwarded-For", js "10.0.0.1")
                  :: [(js "Cookie", js "a=b")] |}
  = middleware sample_env
    {| headers := [(js "Accept", js "text/html");
                   (js "Authorization", js "Basic YWRtaW46c2VjcmV0")]
                  ++ [(js "Cookie", js "a=b")] |}.
Proof.
  apply other_headers_irrelevant. vm_compute. discriminate.
Defined.

(** The casing of a header's name does not change the answer, wherever the
    header stands among the headers. *)
Theorem header_name_case_irrelevant
        (env : Env) (n n' v : jsstring) (h1 h2 : Headers) :
  lowercase n = lowercase n' ->
  middleware env {| headers := h1 ++ (n, v) :: h2 |}
  = middleware env {| headers := h1 ++ (n', v) :: h2 |}.
Proof.
  intros H. apply middleware_same_header.
  rewrite !authHeader_of_get. unfold Headers_get. cbn [headers].
  rewrite !header_values_app. cbn [header_values].
  now rewrite H.
Qed.

Lemma header_name_case_irrelevant_witness :
  middleware sample_env
    {| headers := [(js "Accept", js "text/html")]
                  ++ (js "AUTHORIZATION", js "Basic YWRtaW46c2VjcmV0")
                  :: [(js "Cookie", js "a=b")] |}
  = middleware sample_env
    {| headers := [(js "Accept", js "text/html")]
                  ++ (js "authorization", js "Basic YWRtaW46c2VjcmV0")
                  :: [(js "Cookie", js "a=b")] |}.
Proof.
  apply header_name_case_irrelevant. reflexivity.
Defined.

(** ** The shape of a digest *)

Lemma be_bytes_length (n : nat) (x : Z) : length (SHA512.be_bytes n x) = n.
Proof.
  revert x. induction n as [|n IH]; intros x; cbn [SHA512.be_bytes]; [reflexivity|].
  rewrite length_app, IH. cbn [length]. lia.
Qed.

Lemma be_bytes_is_byte (n : nat) (x : Z) : Forall is_byte (SHA512.be_bytes n x).
Proof.
  revert x. induction n as [|n IH]; intros x; cbn [SHA512.be_bytes]; [constructor|].
  apply Forall_app. split; [apply IH|].
  constructor; [|constructor].
  unfold is_byte. change 255 with (Z.ones 8). rewrite Z.land_ones by lia.
  change (2 ^ 8) with 256. euclid.
Qed.

Lemma compress_length (h block : list Z) :
  length h = 8%nat -> length (SHA512.compress h block) = 8%nat.
Proof.
  intros H. unfold SHA512.compress.
  rewrite length_map, length_combine, H. reflexivity.
Qed.

Lemma hash_value_length (blocks : list (list Z)) (h : list Z) :
  length h = 8%nat -> length (fold_left SHA512.compress blocks h) = 8%nat.
Proof.
  revert h. induction blocks as [|b blocks IH]; intros h H; [exact H|].
  cbn [fold_left]. apply IH. now apply compress_length.
Qed.

Lemma flat_map_be_bytes (l : list Z) :
  length (flat_map (SHA512.be_bytes 8) l) = (8 * length l)%nat /\
  Forall is_byte (flat_map (SHA512.be_bytes 8) l).
Proof.
  induction l as [|x l [IH1 IH2]]; [split; [reflexivity | constructor]|].
  cbn [flat_map]. split.
  - rewrite length_app, be_bytes_length, IH1. cbn [length]. lia.
  - apply Forall_app. split; [apply be_bytes_is_byte | exact IH2].
Qed.

(** A SHA-512 digest is 64 bytes, whatever the message. *)
Lemma SHA512_digest_bytes (m : bytes) :
  length (SHA512.digest m) = 64%nat /\ Forall is_byte (SHA512.digest m).
Proof.
  unfold SHA512.digest.
  destruct (flat_map_be_bytes
              (fold_left SHA512.compress (SHA512.parse (SHA512.pad m)) SHA512.H0))
    as [L B].
  split; [|exact B].
  rewrite L, hash_value_length; reflexivity.
Qed.

(** Base64 text has four characters for every three bytes, the last group
    padded. *)
Lemma base64_encode_length (b : bytes) :
  length (base64_encode b) = (4 * ((length b + 2) / 3))%nat.
Proof.
  induction b as [|x|x y|x y z r IH] using list_ind3; try reflexivity.
  cbn [base64_encode length]. rewrite IH.
  replace (S (S (S (length r))) + 2)%nat with ((length r + 2) + 1 * 3)%nat by lia.
  rewrite Nat.div_add by lia. lia.
Qed.

Lemma digest_text_length (v : value) : length (digest_text v) = 88%nat.
Proof.
  unfold digest_text, crypto_subtle_digest_SHA512.
  rewrite base64_encode_length.
  destruct (SHA512_digest_bytes (TextEncoder_encode v)) as [-> _].
  reflexivity.
Qed.

(** Whatever it is given, [hashPassword] returns 88 characters, and the
    verifier accepts no stored digest of another length. *)
Theorem hashPassword_length (password : value) :
  (exists d, hashPassword password = Ok d /\ length d = 88%nat) /\
  (forall stored,
      isValidPassword password (Str stored) = Ok true -> length stored = 88%nat).
Proof.
  split.
  - exists (digest_text password). split; [apply hashPassword_Ok | apply digest_text_length].
  - intros stored H. rewrite isValidPassword_Ok in H.
    assert (E : strict_eq (Str (digest_text password)) (Str stored) = true) by congruence.
    apply strict_eq_true in E. injection E as <-. apply digest_text_length.
Qed.

(** A stored digest that is not 88 characters long (a hexadecimal or an
    unpadded one, say) lets no request through. *)
Theorem wrong_length_digest_locks_out (env : Env) (req : NextRequest) (d : jsstring) :
  HASHED_ADMIN_PASSWORD env = Str d ->
  length d <> 88%nat ->
  middleware env req <> Ok None.
Proof.
  intros Hd Hlen M.
  apply middleware_allowed in M as (a & token & _ & _ & _ & Hp).
  rewrite Hd in Hp. injection Hp as ->.
  apply Hlen, digest_text_length.
Qed.

Lemma wrong_length_digest_locks_out_witness :
  middleware short_digest_env (request_with (js "Basic YWRtaW46c2VjcmV0")) <> Ok None.
Proof.
  apply (wrong_length_digest_locks_out short_digest_env _ (js "c2VjcmV0")).
  - reflexivity.
  - simpl. lia.
Defined.

(** ** Round trips *)

(** Bytes written by [toString("base64")] contain no space, and
    [Buffer.from(_, "base64")] reads them back. *)
Theorem base64_roundtrip (b : bytes) :
  Forall is_byte b ->
  base64_decode (base64_encode b) = b /\
  ~ In SPACE (base64_encode b) /\
  length (base64_encode b) = (4 * ((length b + 2) / 3))%nat.
Proof.
  intros H. split; [|split].
  - now apply base64_decode_encode.
  - now apply base64_encode_no_space.
  - apply base64_encode_length.
Qed.

Lemma base64_roundtrip_witness :
  base64_decode (base64_encode [0; 255; 16; 128; 7]) = [0; 255; 16; 128; 7] /\
  ~ In SPACE (base64_encode [0; 255; 16; 128; 7]) /\
  length (base64_encode [0; 255; 16; 128; 7]) = (4 * ((length [0; 255; 16; 128; 7] + 2) / 3))%nat.
Proof.
  apply base64_roundtrip.
  repeat (apply Forall_cons; [unfold is_byte; lia|]). apply Forall_nil.
Defined.

(** The UTF-8 bytes [TextEncoder] writes for a string without lone
    surrogates are bytes, and [buf.toString()] reads the string back. *)
Theorem utf8_roundtrip (s : jsstring) :
  well_formed s = true ->
  Forall is_byte (TextEncoder_encode (Str s)) /\
  Buffer_toString (TextEncoder_encode (Str s)) = s.
Proof.
  intros H. cbn [TextEncoder_encode]. split.
  - now apply utf8_is_byte.
  - now apply Buffer_toString_utf8.
Qed.

Lemma utf8_roundtrip_witness :
  Forall is_byte (TextEncoder_encode (Str [0x41; 0xE9; 0x20AC; 0xD83D; 0xDE00])) /\
  Buffer_toString (TextEncoder_encode (Str [0x41; 0xE9; 0x20AC; 0xD83D; 0xDE00]))
  = [0x41; 0xE9; 0x20AC; 0xD83D; 0xDE00].
Proof.
  apply utf8_roundtrip. reflexivity.
Defined.

(** From the header [<scheme> <base64(u:p)>] the token, the decoded text and
    the two pieces come back as they went in, the password up to its first
    colon. *)
Theorem basic_header_roundtrip (scheme u p : jsstring) :
  ~ In SPACE scheme ->
  well_formed (u ++ COLON :: p) = true ->
  ~ In COLON u ->
  index (split SPACE (basic_header scheme (u ++ COLON :: p))) 1
  = Str (base64_encode (utf8 (u ++ COLON :: p))) /\
  Buffer_toString (base64_decode (base64_encode (utf8 (u ++ COLON :: p))))
  = u ++ COLON :: p /\
  credentials (basic_header scheme (u ++ COLON :: p)) = Ok (Str u, Str (before COLON p)).
Proof.
  intros Hs Hw Hu. split; [|split].
  - now apply basic_header_token.
  - rewrite base64_decode_encode by now apply utf8_is_byte.
    now apply Buffer_toString_utf8.
  - now apply credentials_basic_header.
Qed.

Lemma basic_header_roundtrip_witness :
  index (split SPACE (basic_header (js "Basic") (js "admin" ++ COLON :: js "s3:cret"))) 1
  = Str (base64_encode (utf8 (js "admin" ++ COLON :: js "s3:cret"))) /\
  Buffer_toString (base64_decode (base64_encode (utf8 (js "admin" ++ COLON :: js "s3:cret"))))
  = js "admin" ++ COLON :: js "s3:cret" /\
  credentials (basic_header (js "Basic") (js "admin" ++ COLON :: js "s3:cret"))
  = Ok (Str (js "admin"), Str (before COLON (js "s3:cret"))).
Proof.
  apply basic_header_roundtrip.
  - simpl. unfold SPACE. lia.
  - reflexivity.
  - simpl. unfold COLON. lia.
Defined.

(** On a header [<scheme> <base64(u:p)>] the middleware lets the request
    through when [u] is the expected username and the stored digest is that
    of [p] cut at its first colon; in every other case it answers with the
    401 and never throws. *)
Theorem basic_header_decision
        (env : Env) (req : NextRequest) (scheme u p : jsstring) :
  authHeader_of req = Some (basic_header scheme (u ++ COLON :: p)) ->
  ~ In SPACE scheme ->
  well_formed (u ++ COLON :: p) = true ->
  ~ In COLON u ->
  (ADMIN_USERNAME env = Str u /\
   HASHED_ADMIN_PASSWORD env = Str (digestOf (before COLON p)) ->
   middleware env req = Ok None) /\
  (~ (ADMIN_USERNAME env = Str u /\
      HASHED_ADMIN_PASSWORD env = Str (digestOf (before COLON p))) ->
   middleware env req = Ok (Some Unauthorized)).
Proof.
  intros Ha Hs Hw Hu.
  destruct (middleware_basic_header env req scheme u p Ha Hs Hw Hu) as [A R].
  split; [apply A | apply R].
Qed.

Lemma basic_header_decision_witness :
  (ADMIN_USERNAME sample_env = Str (js "admin") /\
   HASHED_ADMIN_PASSWORD sample_env = Str (digestOf (before COLON (js "secret"))) ->
   middleware sample_env (request_with (basic_header (js "Basic") (js "admin:secret")))
   = Ok None) /\
  (~ (ADMIN_USERNAME sample_env = Str (js "admin") /\
      HASHED_ADMIN_PASSWORD sample_env = Str (digestOf (before COLON (js "secret")))) ->
   middleware sample_env (request_with (basic_header (js "Basic") (js "admin:secret")))
   = Ok (Some Unauthorized)).
Proof.
  apply (basic_header_decision sample_env _ (js "Basic") (js "admin") (js "secret")).
  - apply authHeader_of_request_with.
  - simpl. unfold SPACE. lia.
  - reflexivity.
  - simpl. unfold COLON. lia.
Defined.

(** ** Edge cases of the header value *)

Lemma sextets_without_digits (token : jsstring) :
  Forall (fun c => unbase64 c = None) token -> sextets token = [].
Proof.
  induction 1 as [|c token Hc _ IH]; [reflexivity|].
  cbn [sextets]. rewrite Hc, IH. now destruct (c =? EQUALS).
Qed.

(** A token without a single base64 digit ([!!!], say) decodes to the empty
    text: the request is rejected unless the expected username is the empty
    string. *)
Theorem token_without_digits_rejected
        (env : Env) (req : NextRequest) (a token : jsstring) :
  authHeader_of req = Some a ->
  index (split SPACE a) 1 = Str token ->
  Forall (fun c => unbase64 c = None) token ->
  ADMIN_USERNAME env <> Str [] ->
  middleware env req = Ok (Some Unauthorized).
Proof.
  intros Ha Ht Hd Hu.
  rewrite (middleware_token env req a token Ha Ht).
  unfold base64_decode. rewrite (sextets_without_digits token Hd).
  f_equal. apply verdict_reject. intros [E _]. apply Hu. exact E.
Qed.

Lemma token_without_digits_rejected_witness :
  middleware sample_env (request_with (js "Basic !!!")) = Ok (Some Unauthorized).
Proof.
  apply (token_without_digits_rejected sample_env _ (js "Basic !!!") (js "!!!")).
  - reflexivity.
  - reflexivity.
  - repeat (apply Forall_cons; [reflexivity|]). apply Forall_nil.
  - discriminate.
Defined.

Lemma well_formed_colon (s : jsstring) :
  well_formed (s ++ [COLON]) = well_formed s.
Proof.
  induction s as [|c|c d r IHr IHd] using list_ind2.
  - reflexivity.
  - cbn [app]. rewrite !well_formed_cons.
    destruct (is_high_surrogate c); reflexivity.
  - change ((c :: d :: r) ++ [COLON]) with (c :: d :: (r ++ [COLON])).
    rewrite (well_formed_cons c (d :: r)), (well_formed_cons c (d :: r ++ [COLON])).
    destruct (is_high_surrogate c).
    + now rewrite IHr.
    + change (d :: r ++ [COLON]) with ((d :: r) ++ [COLON]). now rewrite IHd.
Qed.

Lemma credentials_basic_header_colon_free (scheme s : jsstring) :
  ~ In SPACE scheme ->
  well_formed s = true ->
  ~ In COLON s ->
  credentials (basic_header scheme s) = Ok (Str s, Undefined).
Proof.
  intros Hs Hw Hc.
  apply (credentials_colon_free _ _ s (basic_header_token scheme s Hs Hw)); [|assumption].
  rewrite base64_decode_encode by now apply utf8_is_byte.
  now apply Buffer_toString_utf8.
Qed.

(** A payload without a colon is answered as the same payload followed by a
    colon and an empty password. *)
Theorem missing_colon_is_empty_password
        (env : Env) (req1 req2 : NextRequest) (scheme1 scheme2 s : jsstring) :
  authHeader_of req1 = Some (basic_header scheme1 s) ->
  authHeader_of req2 = Some (basic_header scheme2 (s ++ [COLON])) ->
  ~ In SPACE scheme1 ->
  ~ In SPACE scheme2 ->
  well_formed s = true ->
  ~ In COLON s ->
  middleware env req1 = middleware env req2.
Proof.
  intros H1 H2 Hs1 Hs2 Hw Hc.
  rewrite (middleware_credentials env req1 _ _ _ H1
             (credentials_basic_header_colon_free scheme1 s Hs1 Hw Hc)).
  assert (Hw' : well_formed (s ++ COLON :: []) = true) by now rewrite well_formed_colon.
  rewrite (middleware_credentials env req2 _ _ _ H2
             (credentials_basic_header scheme2 s [] Hs2 Hw' Hc)).
  unfold verdict. cbn [before].
  now rewrite digest_text_Undefined.
Qed.

Lemma missing_colon_is_empty_password_witness :
  middleware empty_password_env (request_with (basic_header (js "Basic") (js "admin")))
  = middleware empty_password_env (request_with (basic_header (js "Basic") (js "admin:"))).
Proof.
  apply (missing_colon_is_empty_password empty_password_env _ _
           (js "Basic") (js "Basic") (js "admin")).
  - apply authHeader_of_request_with.
  - apply authHeader_of_request_with.
  - simpl. unfold SPACE. lia.
  - simpl. unfold SPACE. lia.
  - reflexivity.
  - simpl. unfold COLON. lia.
Defined.

Lemma sextets_comma (token rest : jsstring) :
  sextets (token ++ 44 :: rest) = sextets token ++
  (if existsb (fun c => c =? EQUALS) token then [] else sextets rest).
Proof.
  induction token as [|c token IH]; [reflexivity|].
  cbn [app sextets existsb].
  destruct (c =? EQUALS); [reflexivity|]. cbn [orb].
  destruct (unbase64 c); rewrite IH; reflexivity.
Qed.

Lemma before_comma (rest more : jsstring) :
  ~ In SPACE rest -> before SPACE (rest ++ 44 :: SPACE :: more) = rest ++ [44].
Proof.
  intros H.
  change (rest ++ 44 :: SPACE :: more) with (rest ++ [44] ++ SPACE :: more).
  rewrite app_assoc. apply before_first.
  intros Hin. apply in_app_or in Hin as [Hin|[E|[]]]; [contradiction | discriminate E].
Qed.

Lemma base64_decode_comma (token : jsstring) :
  base64_decode (token ++ [44]) = base64_decode token.
Proof.
  unfold base64_decode. rewrite sextets_comma. cbn [sextets].
  destruct (existsb (fun c => c =? EQUALS) token); now rewrite app_nil_r.
Qed.

(** What follows the value of a header, after a comma and a space, does not
    change the text decoded from its token. *)
Lemma joined_value_token (scheme rest more : jsstring) :
  ~ In SPACE scheme ->
  exists token,
    index (split SPACE (scheme ++ SPACE :: rest ++ 44 :: SPACE :: more)) 1 = Str token /\
    base64_decode token = base64_decode (before SPACE rest).
Proof.
  intros Hs.
  change (scheme ++ SPACE :: rest ++ 44 :: SPACE :: more)
    with (scheme ++ SPACE :: (rest ++ 44 :: SPACE :: more)).
  rewrite (token_after_space scheme _ Hs).
  eexists. split; [reflexivity|].
  destruct (in_dec Z.eq_dec SPACE rest) as [Hin|Hout].
  - destruct (in_split_first SPACE rest Hin) as (t & r & -> & Ht).
    rewrite <- app_assoc. cbn [app]. now rewrite !before_first.
  - rewrite before_comma, (before_without SPACE rest) by assumption.
    apply base64_decode_comma.
Qed.

Lemma join_cons (sep v : jsstring) (vs : list jsstring) :
  vs <> [] -> join sep (v :: vs) = v ++ sep ++ join sep vs.
Proof. destruct vs; [congruence | reflexivity]. Qed.

(** When the first Authorization header of a request has a value with a
    token (a space in it), that header alone decides: further Authorization
    headers, whose values [Headers.get] appends after a comma and a space,
    and all other headers change nothing. *)
Theorem duplicate_header_first_wins
        (env : Env) (h1 h2 : Headers) (n1 v1 : jsstring) :
  (forall n v, In (n, v) h1 -> lowercase n <> js "authorization") ->
  lowercase n1 = js "authorization" ->
  In SPACE v1 ->
  middleware env {| headers := h1 ++ (n1, v1) :: h2 |}
  = middleware env {| headers := [(n1, v1)] |}.
Proof.
  intros Hh1 Hn1 Hv1.
  assert (H2 : authHeader_of {| headers := [(n1, v1)] |} = Some v1).
  { rewrite authHeader_of_get. unfold Headers_get. cbn [headers header_values].
    rewrite Hn1. change (lowercase (js "authorization")) with (js "authorization").
    now rewrite str_eqb_refl. }
  assert (V : header_values (js "authorization") (h1 ++ (n1, v1) :: h2)
              = v1 :: header_values (js "authorization") h2).
  { rewrite header_values_app, (header_values_absent _ h1) by exact Hh1.
    cbn [app header_values].
    rewrite Hn1. change (lowercase (js "authorization")) with (js "authorization").
    now rewrite str_eqb_refl. }
  destruct (header_values (js "authorization") h2) as [|v vs] eqn:E.
  - apply middleware_same_header. rewrite H2, authHeader_of_get.
    unfold Headers_get. cbn [headers]. now rewrite V.
  - assert (H1 : authHeader_of {| headers := h1 ++ (n1, v1) :: h2 |}
                 = Some (v1 ++ 44 :: SPACE :: join (js ", ") (v :: vs))).
    { rewrite authHeader_of_get. unfold Headers_get. cbn [headers]. rewrite V.
      rewrite join_cons by discriminate. reflexivity. }
    destruct (in_split_first SPACE v1 Hv1) as (scheme & rest & -> & Hs).
    rewrite <- app_assoc in H1. cbn [app] in H1.
    destruct (joined_value_token scheme rest (join (js ", ") (v :: vs)) Hs)
      as (token & Ht & Hd).
    rewrite (middleware_token env _ _ _ H1 Ht), Hd.
    now rewrite (middleware_token env _ _ _ H2 (token_after_space scheme rest Hs)).
Qed.

Lemma duplicate_header_first_wins_witness :
  middleware sample_env
    {| headers := [(js "Accept", js "text/html")]
                  ++ (js "Authorization", js "Basic YWRtaW46c2VjcmV0")
                  :: [(js "authorization", js "Basic cm9vdDpzZWNyZXQ=");
                      (js "Cookie", js "a=b")] |}
  = middleware sample_env
    {| headers := [(js "Authorization", js "Basic YWRtaW46c2VjcmV0")] |}.
Proof.
  apply duplicate_header_first_wins.
  - intros n v [E | []]. injection E as <- <-. vm_compute. discriminate.
  - reflexivity.
  - vm_compute. tauto.
Defined.

(** Without a token in the first value the second header does change the
    answer: the scheme alone throws, the scheme followed by a second header
    is answered with the 401. *)
Example token_less_first_header :
  middleware sample_env {| headers := [(js "Authorization", js "Basic")] |}
  = Throw TypeError /\
  middleware sample_env
    {| headers := [(js "Authorization", js "Basic");
                   (js "Authorization", js "Basic YWRtaW46c2VjcmV0")] |}
  = Ok (Some Unauthorized).
Proof. split; vm_compute; reflexivity. Qed.

(** ** Distinct passwords, equal digests *)
















